(** * pint.registry: the composed registry, the deferred-construction handle
      and the application-registry indirection

    A shallow embedding of [pint/registry.py] (and of the one class
    statement of [pint/facets/numpy/registry.py]) together with the
    properties of the three mechanisms the module implements:

    - the facet composition of [Quantity], [Unit] and [GenericUnitRegistry]
      (their base-class lists and Python's C3 linearisation of them);
    - [LazyRegistry], which retypes itself into a [UnitRegistry] on first use;
    - [ApplicationRegistry], the forwarding wrapper with [get]/[set].

    Python objects live in a heap indexed by their identity; an object is a
    class tag and a string-keyed table (its [__dict__], its slots, or the
    items of a [dict]).  Methods are state transformers over the heap that
    may raise.  Code the module imports but does not define (the facet
    registries, [pint.util.pi_theorem], other classes) is a parameter of
    the development, the class [Collaborators]. *)

From stdpp Require Import base gmap strings list.
From Stdlib Require Import ZArith.

Set Default Proof Using "Type".
Open Scope string_scope.
Open Scope list_scope.

(** ** Values, objects, exceptions *)

Definition loc := nat.

Inductive class :=
| cLazyRegistry
| cUnitRegistry
| cApplicationRegistry
| cDict
| cOther (name : string).

Global Instance class_eq_dec : EqDecision class.
Proof. solve_decision. Defined.

#[warnings="-register-all"]
Inductive value :=
| VNone
| VBool (b : bool)
| VInt (n : Z)
| VStr (s : string)
| VTuple (items : list value)
| VClass (c : class)
| VRef (l : loc)
    (* an object of the heap, by identity *)
| VBound (c : class) (self : loc) (name : string)
    (* the attribute [name] of class [c], bound to [self] *)
| VSeqIter (l : loc)
    (* the iterator [iter] builds over an object that has only [__getitem__] *)
| VOpaque (cls : string) (tag : nat).
    (* an instance of class [cls] owned by collaborator code *)

Global Instance value_inhabited : Inhabited value := populate VNone.

Inductive exn :=
| TypeError (msg : string)
| AttributeError (name : string)
| KeyError (key : string)
| RecursionError
| SystemError               (* a dangling reference; no Python program holds one *)
| Raised (what : value).    (* whatever collaborator code raises *)

Inductive result (A : Type) :=
| Ok (a : A)
| Raise (e : exn).
Arguments Ok {A} a.
Arguments Raise {A} e.

Record object := Object { ob_class : class; ob_attrs : gmap string value }.

(** The operations a caller can perform on an object from outside. *)
Inductive op :=
| GetAttr (name : string)                                (* x.name *)
| SetAttr (name : string) (v : value)                    (* x.name = v *)
| GetItem (item : value)                                 (* x[item] *)
| Call (args : list value) (kwargs : gmap string value)  (* x(args..., kwargs...) *)
| Iter.                                                  (* iter(x) *)

(** What an attribute read answered by collaborator code yields: a value, or
    a method of the instance (which the caller receives bound to it). *)
Inductive attr :=
| Plain (v : value)
| Method.

(** Calls into collaborator code that the module makes explicitly. *)
Inductive event :=
| Setup (self : loc) (kw : gmap string value)
    (* the [super().__init__] call of [UnitRegistry.__init__], with its keywords *)
| Debug (fmt : string) (args : list value).
    (* a [logger.debug] call, with its format and arguments *)

(** ** Collaborators

    Code outside the two source files.  It acts on the instance table of the
    receiver and on a state of its own ([env]: definition files, caches, the
    logging configuration, ...), and cannot retype an object. *)

Definition ext (E A : Type) : Type :=
  gmap string value → E → result A * gmap string value * E.

Class Collaborators := {
  env : Type;
  (* [GenericUnitRegistry.__init__] with its keywords: the facets' initialisers *)
  Generic_init : gmap string value → ext env unit;
  (* attribute read on a registry, for names [UnitRegistry]'s body does not define *)
  registry_getattr : string → ext env attr;
  registry_setattr : string → value → ext env unit;
  registry_getitem : value → ext env value;
  registry_call : list value → gmap string value → ext env value;
  registry_iter : ext env value;
  (* a call of a method the facets define; [self._after_init()] is such a call *)
  registry_method : string → list value → gmap string value → ext env value;
  (* [pint.util.pi_theorem(quantities, registry)] *)
  util_pi_theorem : value → ext env value;
  (* objects of any other class, and values that are not heap objects *)
  other_perform : class → op → ext env value;
  other_method : class → string → list value → gmap string value → ext env value;
  primitive_perform : value → op → result value;
  (* whether instances of another class have the plain [__dict__] layout *)
  plain_layout : string → bool;
}.

(** ** The state monad *)

Section Monad.
Context `{Collaborators}.

Record world := World {
  heap : gmap loc object;
  outside : env;
  journal : list event;
}.

Definition M (A : Type) : Type := world → result A * world.

Definition ret {A} (a : A) : M A := λ w, (Ok a, w).

Definition bind {A B} (m : M A) (k : A → M B) : M B :=
  λ w, match m w with
       | (Ok a, w') => k a w'
       | (Raise e, w') => (Raise e, w')
       end.

Definition raise {A} (e : exn) : M A := λ w, (Raise e, w).

Definition lift {A} (r : result A) : M A := λ w, (r, w).

Definition emit (ev : event) : M unit :=
  λ w, (Ok tt, World (heap w) (outside w) (journal w ++ [ev])).

Definition get_object (l : loc) : M object :=
  λ w, match heap w !! l with
       | Some o => (Ok o, w)
       | None => (Raise SystemError, w)
       end.

Definition put_object (l : loc) (o : object) : M unit :=
  λ w, (Ok tt, World (<[l := o]> (heap w)) (outside w) (journal w)).

(** [object()] of a given class: a fresh identity. *)
Definition alloc (o : object) : M loc :=
  λ w, let l := fresh (dom (heap w)) in
       (Ok l, World (<[l := o]> (heap w)) (outside w) (journal w)).

(** Runs collaborator code on the instance table of [self]. *)
Definition run_ext {A} (self : loc) (f : ext env A) : M A :=
  λ w, match heap w !! self with
       | Some o =>
           let '(r, attrs', e') := f (ob_attrs o) (outside w) in
           (r, World (<[self := Object (ob_class o) attrs']> (heap w)) e' (journal w))
       | None => (Raise SystemError, w)
       end.

End Monad.

Declare Scope py_scope.
Delimit Scope py_scope with py.
Notation "x ← m ; k" := (bind m (λ x, k))
  (at level 20, m at level 100, k at level 200, only parsing) : py_scope.
Notation "' p ← m ; k" := (bind m (λ p, k))
  (at level 20, p pattern, m at level 100, k at level 200, only parsing) : py_scope.
Notation "m ;; k" := (bind m (λ _, k))
  (at level 100, k at level 200, right associativity, only parsing) : py_scope.
Open Scope py_scope.

(** ** The object model the module relies on *)

Section ObjectModel.
Context `{Collaborators}.

Definition class_of (l : loc) : M class := o ← get_object l; ret (ob_class o).

Definition get_attrs (l : loc) : M (gmap string value) :=
  o ← get_object l; ret (ob_attrs o).

(** [table[k] = v] on the table of [l] (its [__dict__], a slot, a dict item). *)
Definition set_item (l : loc) (k : string) (v : value) : M unit :=
  o ← get_object l; put_object l (Object (ob_class o) (<[k := v]> (ob_attrs o))).

(** [table[k]] *)
Definition get_item (l : loc) (k : string) : M value :=
  a ← get_attrs l;
  match a !! k with
  | Some v => ret v
  | None => raise (KeyError k)
  end.

Definition set_class (l : loc) (c : class) : M unit :=
  o ← get_object l; put_object l (Object c (ob_attrs o)).

(** [type(v)] *)
Definition type_of (v : value) : M class :=
  match v with
  | VRef l => class_of l
  | VNone => ret (cOther "NoneType")
  | VBool _ => ret (cOther "bool")
  | VInt _ => ret (cOther "int")
  | VStr _ => ret (cOther "str")
  | VTuple _ => ret (cOther "tuple")
  | VClass _ => ret (cOther "type")
  | VBound _ _ _ => ret (cOther "method")
  | VSeqIter _ => ret (cOther "iterator")
  | VOpaque cls _ => ret (cOther cls)
  end.

(** [str(c)] for a class [c], as [%s] formats it. *)
Definition repr_class (c : class) : string :=
  match c with
  | cLazyRegistry => "<class 'pint.registry.LazyRegistry'>"
  | cUnitRegistry => "<class 'pint.registry.UnitRegistry'>"
  | cApplicationRegistry => "<class 'pint.registry.ApplicationRegistry'>"
  | cDict => "<class 'dict'>"
  | cOther name => ("<class '" ++ name ++ "'>")%string
  end.

(** [isinstance(v, cs)]; the classes of this model have no subclasses. *)
Definition isinstance (v : value) (cs : list class) : M bool :=
  c ← type_of v; ret (bool_decide (c ∈ cs)).

(** [bool(v)]: empty containers, zero and [None] are false; instances
    without [__bool__] and [__len__] are true. *)
Definition truthy (v : value) : M bool :=
  match v with
  | VNone => ret false
  | VBool b => ret b
  | VInt n => ret (negb (n =? 0)%Z)
  | VStr s => ret (negb (bool_decide (s = "")))
  | VTuple items => ret (match items with [] => false | _ => true end)
  | VRef l =>
      o ← get_object l;
      match ob_class o with
      | cDict => ret (negb (bool_decide (size (ob_attrs o) = 0)))
      | _ => ret true
      end
  | _ => ret true
  end.

(** [v or d] *)
Definition or_else (v : value) (d : M value) : M value :=
  t ← truthy v; if t then ret v else d.

(** The items [iter(v)] yields, for the values a call unpacks: tuples,
    strings (their characters) and dicts (their keys). *)
Definition iterate (v : value) : M (list value) :=
  match v with
  | VTuple items => ret items
  | VStr s => ret ((λ c, VStr (String c EmptyString)) <$> String.list_ascii_of_string s)
  | VRef l =>
      o ← get_object l;
      match ob_class o with
      | cDict => ret (VStr <$> (map_to_list (ob_attrs o)).*1)
      | _ => raise (TypeError "object is not iterable")
      end
  | _ => raise (TypeError "object is not iterable")
  end.

(** [**v] at a call site *)
Definition double_star (v : value) : M (gmap string value) :=
  match v with
  | VRef l =>
      o ← get_object l;
      match ob_class o with
      | cDict => ret (ob_attrs o)
      | _ => raise (TypeError "argument after ** must be a mapping")
      end
  | _ => raise (TypeError "argument after ** must be a mapping")
  end.

(** [v[key] = x] *)
Definition store_subscript (v : value) (key : string) (x : value) : M unit :=
  match v with
  | VRef l =>
      c ← class_of l;
      match c with
      | cDict => set_item l key x
      | _ => raise (TypeError "object does not support item assignment")
      end
  | _ => raise (TypeError "object does not support item assignment")
  end.

(** [a, b = v] *)
Definition unpack_pair (v : value) : M (value * value) :=
  items ← iterate v;
  match items with
  | [a; b] => ret (a, b)
  | _ => raise (TypeError "cannot unpack into two targets")
  end.

(** The attributes every instance inherits from [object] (CPython 3.12). *)
Definition object_attrs : list string :=
  [ "__delattr__"; "__dir__"; "__doc__"; "__eq__"; "__format__"; "__ge__";
    "__getattribute__"; "__getstate__"; "__gt__"; "__hash__"; "__init__";
    "__init_subclass__"; "__le__"; "__lt__"; "__ne__"; "__new__";
    "__reduce__"; "__reduce_ex__"; "__repr__"; "__setattr__"; "__sizeof__";
    "__str__"; "__subclasshook__" ].

(** Entries every class statement adds to the class namespace. *)
Definition class_extras : list string := [ "__module__"; "__doc__" ].

(** Whether an instance with a [__dict__] may be retyped to [c]. *)
Definition layout_compatible (c : class) : bool :=
  match c with
  | cLazyRegistry | cUnitRegistry => true
  | cApplicationRegistry => false      (* [__slots__], no [__dict__] *)
  | cDict => false
  | cOther name => plain_layout name
  end.

(** [object.__setattr__(self, key, v)] *)
Definition object_setattr (self : loc) (key : string) (v : value) : M unit :=
  if decide (key = "__class__") then
    match v with
    | VClass c =>
        if layout_compatible c then set_class self c
        else raise (TypeError "__class__ assignment: object layout differs")
    | _ => raise (TypeError "__class__ must be set to a class")
    end
  else set_item self key v.

(** Python's binding of a call's arguments to a signature whose parameters
    are all positional-or-keyword; [None] marks a parameter without default. *)
Definition bind_arguments (sig : list (string * option value))
    (args : list value) (kwargs : gmap string value) : result (gmap string value) :=
  let names := sig.*1 in
  let positional : gmap string value := list_to_map (zip names args) in
  let defaults : gmap string value :=
    list_to_map (omap (λ p, (p.1,.) <$> p.2) sig) in
  let bound := kwargs ∪ positional ∪ defaults in
  if decide (length args ≤ length names)%nat then
    if decide (map_Forall (λ k _, k ∈ names) kwargs) then
      if decide (kwargs ##ₘ positional) then
        if decide (Forall (λ n, is_Some (bound !! n)) names) then Ok bound
        else Raise (TypeError "missing a required argument")
      else Raise (TypeError "got multiple values for an argument")
    else Raise (TypeError "got an unexpected keyword argument")
  else Raise (TypeError "too many positional arguments").

(** The single argument of a one-parameter method. *)
Definition bind_one (name : string) (args : list value)
    (kwargs : gmap string value) : result value :=
  match bind_arguments [(name, None)] args kwargs with
  | Ok b => Ok (default VNone (b !! name))
  | Raise e => Raise e
  end.

(** Dynamic dispatch: [rec target o] performs [o] on [target] through the
    methods of its current class. *)
Definition dispatch : Type := value → op → M value.

(** [target.name(args..., kwargs...)] *)
Definition call_method (rec : dispatch) (target : value) (name : string)
    (args : list value) (kwargs : gmap string value) : M value :=
  f ← rec target (GetAttr name); rec f (Call args kwargs).

End ObjectModel.

(** ** class UnitRegistry(GenericUnitRegistry) *)

Module UnitRegistry.
Section Methods.
Context `{Collaborators}.

(** The names the class body defines. *)
Definition body : list string :=
  [ "Quantity"; "Unit"; "__init__"; "pi_theorem"; "setup_matplotlib";
    "wraps"; "check" ].

(** The parameters of [__init__] after [self], with their defaults. *)
Definition signature : list (string * option value) :=
  [ ("filename", Some (VStr ""));
    ("force_ndarray", Some (VBool false));
    ("force_ndarray_like", Some (VBool false));
    ("default_as_delta", Some (VBool true));
    ("autoconvert_offset_to_baseunit", Some (VBool false));
    ("on_redefinition", Some (VStr "warn"));
    ("system", Some VNone);
    ("auto_reduce_dimensions", Some (VBool false));
    ("autoconvert_to_preferred", Some (VBool false));
    ("preprocessors", Some VNone);
    ("fmt_locale", Some VNone);
    ("non_int_type", Some (VClass (cOther "float")));
    ("case_sensitive", Some (VBool true));
    ("cache_folder", Some VNone) ].

(** The keywords of the [super().__init__] call, each passed the parameter
    of the same name. *)
Definition super_keywords : list string :=
  [ "filename"; "force_ndarray"; "force_ndarray_like"; "on_redefinition";
    "default_as_delta"; "autoconvert_offset_to_baseunit"; "system";
    "auto_reduce_dimensions"; "autoconvert_to_preferred"; "preprocessors";
    "fmt_locale"; "non_int_type"; "case_sensitive"; "cache_folder" ].

Definition forwarded (b : gmap string value) : gmap string value :=
  list_to_map (omap (λ n, (n,.) <$> b !! n) super_keywords).

(** [__init__]: binds the arguments and passes every parameter on to
    [super().__init__] under its own name. *)
Definition __init__ (self : loc) (args : list value)
    (kwargs : gmap string value) : M unit :=
  b ← lift (bind_arguments signature args kwargs);
  emit (Setup self (forwarded b));;
  run_ext self (Generic_init (forwarded b)).

(** [return pi_theorem(quantities, self)] *)
Definition pi_theorem (self : loc) (quantities : value) : M value :=
  run_ext self (util_pi_theorem quantities).

(** Attribute read on an instance: a name of the class body is a plain
    class attribute, which the instance table shadows; any other name is
    resolved by the facets. *)
Definition getattribute (self : loc) (name : string) : M value :=
  if decide (name ∈ body) then
    a ← get_attrs self;
    match a !! name with
    | Some v => ret v
    | None => ret (VBound cUnitRegistry self name)
    end
  else
    r ← run_ext self (registry_getattr name);
    match r with
    | Plain v => ret v
    | Method => ret (VBound cUnitRegistry self name)
    end.

Definition perform (self : loc) (o : op) : M value :=
  match o with
  | GetAttr name => getattribute self name
  | SetAttr name v => run_ext self (registry_setattr name v);; ret VNone
  | GetItem item => run_ext self (registry_getitem item)
  | Call args kwargs => run_ext self (registry_call args kwargs)
  | Iter => run_ext self registry_iter
  end.

(** A call of the method [name] of the class, bound to [self];
    [setup_matplotlib], [wraps] and [check] only hand over to modules
    outside the sources and are left to the collaborators. *)
Definition invoke (self : loc) (name : string) (args : list value)
    (kwargs : gmap string value) : M value :=
  if decide (name = "__init__") then __init__ self args kwargs;; ret VNone
  else if decide (name = "pi_theorem") then
    q ← lift (bind_one "quantities" args kwargs); pi_theorem self q
  else run_ext self (registry_method name args kwargs).

End Methods.
End UnitRegistry.

(** ** class LazyRegistry *)

Module LazyRegistry.
Section Methods.
Context `{Collaborators}.

(** The names the class body defines; [__init] is stored under its
    mangled name. *)
Definition body : list string :=
  [ "__init__"; "_LazyRegistry__init"; "__getattr__"; "__setattr__";
    "__getitem__"; "__call__" ].

(** [object.__getattribute__] on an instance: the class of the instance,
    then its [__dict__], then the class namespace.  [None] is the
    [AttributeError] after which [__getattr__] runs. *)
Definition lookup (self : loc) (attrs : gmap string value)
    (name : string) : option value :=
  if decide (name = "__class__") then Some (VClass cLazyRegistry)
  else if decide (name ∈ ["__dict__"; "__weakref__"]) then
    Some (VBound cLazyRegistry self name)
  else
    match attrs !! name with
    | Some v => Some v
    | None =>
        if decide (name ∈ body ++ class_extras) then
          Some (VBound cLazyRegistry self name)
        else if decide (name ∈ object_attrs) then
          Some (VBound (cOther "object") self name)
        else None
    end.

(** [self.__dict__["params"] = args or (), kwargs or {}] *)
Definition __init__ (self : loc) (args kwargs : value) : M unit :=
  a ← or_else args (ret (VTuple []));
  k ← or_else kwargs (l ← alloc (Object cDict ∅); ret (VRef l));
  set_item self "params" (VTuple [a; k]).

(** [__init]: unpacks [params], stores ["raise"] in the dict, assigns
    [self.__class__] (an attribute write, dispatched like any other),
    calls [self.__init__] with the unpacked arguments and then the facets'
    method [_after_init]. *)
Definition __init (rec : dispatch) (self : loc) : M unit :=
  p ← get_item self "params";
  '(args, kwargs) ← unpack_pair p;
  store_subscript kwargs "on_redefinition" (VStr "raise");;
  rec (VRef self) (SetAttr "__class__" (VClass cUnitRegistry));;
  init ← rec (VRef self) (GetAttr "__init__");
  a ← iterate args;
  k ← double_star kwargs;
  rec init (Call a k);;
  run_ext self (registry_method "_after_init" [] ∅);;
  ret tt.

(** [__getattr__]; [self.__init()] is the call of the attribute
    [_LazyRegistry__init] of [self]. *)
Definition __getattr__ (rec : dispatch) (self : loc) (item : string) : M value :=
  if decide (item = "_on_redefinition") then ret (VStr "raise")
  else
    call_method rec (VRef self) "_LazyRegistry__init" [] ∅;;
    rec (VRef self) (GetAttr item).

(** [__setattr__]; [super().__setattr__] is [object.__setattr__]. *)
Definition __setattr__ (rec : dispatch) (self : loc) (key : string)
    (v : value) : M unit :=
  if decide (key = "__class__") then object_setattr self key v
  else
    call_method rec (VRef self) "_LazyRegistry__init" [] ∅;;
    rec (VRef self) (SetAttr key v);;
    ret tt.

Definition __getitem__ (rec : dispatch) (self : loc) (item : value) : M value :=
  call_method rec (VRef self) "_LazyRegistry__init" [] ∅;;
  rec (VRef self) (GetItem item).

Definition __call__ (rec : dispatch) (self : loc) (args : list value)
    (kwargs : gmap string value) : M value :=
  call_method rec (VRef self) "_LazyRegistry__init" [] ∅;;
  rec (VRef self) (Call args kwargs).

(** Attribute read: ordinary lookup, and [__getattr__] when it fails. *)
Definition getattribute (rec : dispatch) (self : loc) (name : string) : M value :=
  a ← get_attrs self;
  match lookup self a name with
  | Some v => ret v
  | None => __getattr__ rec self name
  end.

Definition perform (rec : dispatch) (self : loc) (o : op) : M value :=
  match o with
  | GetAttr name => getattribute rec self name
  | SetAttr key v => __setattr__ rec self key v;; ret VNone
  | GetItem item => __getitem__ rec self item
  | Call args kwargs => __call__ rec self args kwargs
  | Iter => ret (VSeqIter self)   (* no [__iter__], but [__getitem__]: nothing is called yet *)
  end.

(** A call of the function [name] of the class body, bound to [self]. *)
Definition invoke (rec : dispatch) (self : loc) (name : string)
    (args : list value) (kwargs : gmap string value) : M value :=
  if decide (name = "__init__") then
    b ← lift (bind_arguments [("args", Some VNone); ("kwargs", Some VNone)] args kwargs);
    __init__ self (default VNone (b !! "args")) (default VNone (b !! "kwargs"));;
    ret VNone
  else if decide (name = "_LazyRegistry__init") then
    lift (bind_arguments [] args kwargs);; __init rec self;; ret VNone
  else if decide (name = "__getattr__") then
    i ← lift (bind_one "item" args kwargs);
    match i with
    | VStr item => __getattr__ rec self item
    | _ =>
        call_method rec (VRef self) "_LazyRegistry__init" [] ∅;;
        raise (TypeError "attribute name must be string")
    end
  else if decide (name = "__setattr__") then
    b ← lift (bind_arguments [("key", None); ("value", None)] args kwargs);
    match b !! "key" with
    | Some (VStr key) =>
        __setattr__ rec self key (default VNone (b !! "value"));; ret VNone
    | _ =>
        call_method rec (VRef self) "_LazyRegistry__init" [] ∅;;
        raise (TypeError "attribute name must be string")
    end
  else if decide (name = "__getitem__") then
    i ← lift (bind_one "item" args kwargs); __getitem__ rec self i
  else if decide (name = "__call__") then __call__ rec self args kwargs
  else raise (AttributeError name).

End Methods.
End LazyRegistry.

(** ** class ApplicationRegistry *)

Module ApplicationRegistry.
Section Methods.
Context `{Collaborators}.

Definition __slots__ : list string := [ "_registry" ].

Definition body : list string :=
  [ "__slots__"; "__init__"; "get"; "set"; "__getattr__"; "__setattr__";
    "__dir__"; "__getitem__"; "__call__"; "__contains__"; "__iter__" ].

(** [object.__getattribute__] on an instance: a slot holds its value or
    is unset; there is no [__dict__]. *)
Definition lookup (self : loc) (attrs : gmap string value)
    (name : string) : option value :=
  if decide (name = "__class__") then Some (VClass cApplicationRegistry)
  else if decide (name ∈ __slots__) then attrs !! name
  else if decide (name ∈ body ++ class_extras) then
    Some (VBound cApplicationRegistry self name)
  else if decide (name ∈ object_attrs) then
    Some (VBound (cOther "object") self name)
  else None.

(** [self._registry = registry] *)
Definition __init__ (rec : dispatch) (self : loc) (registry : value) : M unit :=
  rec (VRef self) (SetAttr "_registry" registry);; ret tt.

(** [return self._registry] *)
Definition get (rec : dispatch) (self : loc) : M value :=
  rec (VRef self) (GetAttr "_registry").

(** [set]: unwraps a candidate of the handle's own class, checks the
    class of the result, logs and stores it. *)
Definition set (rec : dispatch) (self : loc) (new_registry : value) : M unit :=
  c ← type_of (VRef self);
  wrapped ← isinstance new_registry [c];
  new_registry ← (if wrapped : bool then call_method rec new_registry "get" [] ∅
                  else ret new_registry);
  valid ← isinstance new_registry [cLazyRegistry; cUnitRegistry];
  if negb valid then
    t ← type_of new_registry;
    raise (TypeError ("Expected UnitRegistry; got " +:+ repr_class t))
  else
    old ← rec (VRef self) (GetAttr "_registry");
    emit (Debug "Changing app registry from %r to %r." [old; new_registry]);;
    rec (VRef self) (SetAttr "_registry" new_registry);;
    ret tt.

(** [return getattr(self._registry, name)] *)
Definition __getattr__ (rec : dispatch) (self : loc) (name : string) : M value :=
  r ← rec (VRef self) (GetAttr "_registry");
  rec r (GetAttr name).

Definition __setattr__ (rec : dispatch) (self : loc) (name : string)
    (v : value) : M unit :=
  if decide (name ∈ __slots__) then object_setattr self name v
  else
    r ← rec (VRef self) (GetAttr "_registry");
    rec r (SetAttr name v);;
    ret tt.

Definition __getitem__ (rec : dispatch) (self : loc) (item : value) : M value :=
  r ← rec (VRef self) (GetAttr "_registry");
  rec r (GetItem item).

Definition __call__ (rec : dispatch) (self : loc) (args : list value)
    (kwargs : gmap string value) : M value :=
  r ← rec (VRef self) (GetAttr "_registry");
  rec r (Call args kwargs).

(** [return self._registry.__contains__(item)] *)
Definition __contains__ (rec : dispatch) (self : loc) (item : value) : M value :=
  r ← rec (VRef self) (GetAttr "_registry");
  call_method rec r "__contains__" [item] ∅.

(** [return iter(self._registry)] *)
Definition __iter__ (rec : dispatch) (self : loc) : M value :=
  r ← rec (VRef self) (GetAttr "_registry");
  rec r Iter.

Definition getattribute (rec : dispatch) (self : loc) (name : string) : M value :=
  a ← get_attrs self;
  match lookup self a name with
  | Some v => ret v
  | None => __getattr__ rec self name
  end.

Definition perform (rec : dispatch) (self : loc) (o : op) : M value :=
  match o with
  | GetAttr name => getattribute rec self name
  | SetAttr name v => __setattr__ rec self name v;; ret VNone
  | GetItem item => __getitem__ rec self item
  | Call args kwargs => __call__ rec self args kwargs
  | Iter => __iter__ rec self
  end.

(** A call of the function [name] of the class body, bound to [self];
    [__dir__] (introspection) is left to the collaborators. *)
Definition invoke (rec : dispatch) (self : loc) (name : string)
    (args : list value) (kwargs : gmap string value) : M value :=
  if decide (name = "__init__") then
    r ← lift (bind_one "registry" args kwargs); __init__ rec self r;; ret VNone
  else if decide (name = "get") then
    lift (bind_arguments [] args kwargs);; get rec self
  else if decide (name = "set") then
    r ← lift (bind_one "new_registry" args kwargs); set rec self r;; ret VNone
  else if decide (name = "__getattr__") then
    i ← lift (bind_one "name" args kwargs);
    match i with
    | VStr name => __getattr__ rec self name
    | _ =>
        rec (VRef self) (GetAttr "_registry");;
        raise (TypeError "attribute name must be string")
    end
  else if decide (name = "__setattr__") then
    b ← lift (bind_arguments [("name", None); ("value", None)] args kwargs);
    match b !! "name" with
    | Some (VStr name) =>
        __setattr__ rec self name (default VNone (b !! "value"));; ret VNone
    | _ => raise (TypeError "attribute name must be string")
    end
  else if decide (name = "__getitem__") then
    i ← lift (bind_one "item" args kwargs); __getitem__ rec self i
  else if decide (name = "__call__") then __call__ rec self args kwargs
  else if decide (name = "__contains__") then
    i ← lift (bind_one "item" args kwargs); __contains__ rec self i
  else if decide (name = "__iter__") then
    lift (bind_arguments [] args kwargs);; __iter__ rec self
  else run_ext self (other_method cApplicationRegistry name args kwargs).

End Methods.
End ApplicationRegistry.

(** ** Dispatch on the class of the receiver

    The fuel is the depth of nested calls Python allows before it raises
    [RecursionError]. *)

Section Perform.
Context `{Collaborators}.

Fixpoint perform (fuel : nat) (target : value) (o : op) : M value :=
  match fuel with
  | 0 => raise RecursionError
  | S n =>
      match target with
      | VRef l =>
          c ← class_of l;
          match c with
          | cLazyRegistry => LazyRegistry.perform (perform n) l o
          | cUnitRegistry => UnitRegistry.perform l o
          | cApplicationRegistry => ApplicationRegistry.perform (perform n) l o
          | _ => run_ext l (other_perform c o)
          end
      | VBound c l name =>
          match o with
          | Call args kwargs =>
              match c with
              | cLazyRegistry => LazyRegistry.invoke (perform n) l name args kwargs
              | cUnitRegistry => UnitRegistry.invoke l name args kwargs
              | cApplicationRegistry =>
                  ApplicationRegistry.invoke (perform n) l name args kwargs
              | _ => run_ext l (other_method c name args kwargs)
              end
          | _ => lift (primitive_perform target o)
          end
      | _ => lift (primitive_perform target o)
      end
  end.

End Perform.

(** ** A small instance of the collaborators

    A registry whose setup records the configuration it is given in the
    instance table, and whose facet methods answer with constants.  It
    serves to run the definitions on concrete worlds. *)

Module Demo.

Definition setup (kw : gmap string value) : ext nat unit :=
  λ attrs e,
    (Ok tt, <["_on_redefinition" := default VNone (kw !! "on_redefinition")]> attrs, S e).

Definition getattr (name : string) : ext nat attr :=
  λ attrs e,
    match attrs !! name with
    | Some v => (Ok (Plain v), attrs, e)
    | None =>
        if decide (name ∈ ["_after_init"; "__contains__"; "get_dimensionality"])
        then (Ok Method, attrs, e)
        else (Raise (AttributeError name), attrs, e)
    end.

Definition method (name : string) (args : list value)
    (kwargs : gmap string value) : ext nat value :=
  λ attrs e,
    if decide (name = "_after_init") then (Ok VNone, <["_initialized" := VBool true]> attrs, e)
    else if decide (name = "__contains__") then (Ok (VBool false), attrs, e)
    else (Raise (AttributeError name), attrs, e).

Definition collaborators : Collaborators := {|
  env := nat;
  Generic_init := setup;
  registry_getattr := getattr;
  registry_setattr := λ name v attrs e, (Ok tt, <[name := v]> attrs, e);
  registry_getitem := λ item attrs e, (Ok (VOpaque "Quantity" 0), attrs, e);
  registry_call := λ args kwargs attrs e, (Ok (VOpaque "Quantity" 1), attrs, e);
  registry_iter := λ attrs e, (Ok (VOpaque "iterator" 0), attrs, e);
  registry_method := method;
  util_pi_theorem := λ q attrs e, (Ok (VTuple [q]), attrs, e);
  other_perform := λ c o attrs e, (Raise (TypeError "unsupported operation"), attrs, e);
  other_method := λ c name args kwargs attrs e, (Raise (TypeError "unsupported operation"), attrs, e);
  primitive_perform := λ v o, Raise (TypeError "unsupported operation");
  plain_layout := λ name, false;
|}.
End Demo.

(** ** States and notions the properties are stated with *)

Section Specification.
Context `{Collaborators}.

Definition class_at (w : world) (l : loc) : option class :=
  ob_class <$> heap w !! l.

Definition table_at (w : world) (l : loc) : option (gmap string value) :=
  ob_attrs <$> heap w !! l.

(** The [__dict__] that [LazyRegistry.__init__] leaves. *)
Definition params_table (args : list value) (d : loc) : gmap string value :=
  {[ "params" := VTuple [VTuple args; VRef d] ]}.

(** The handle [l] is pending: it holds a tuple [args] of positional
    arguments and a dict, the object [d] with items [kw]. *)
Definition pending (w : world) (l : loc) (args : list value) (d : loc)
    (kw : gmap string value) : Prop :=
  heap w !! l = Some (Object cLazyRegistry (params_table args d)) ∧
  heap w !! d = Some (Object cDict kw).

(** The operations on a handle with instance table [attrs] that reach
    [__init]: a subscript, a call, a write of a name other than
    [__class__], a read of a name ordinary lookup does not find and
    [__getattr__] does not answer itself. *)
Definition triggers (self : loc) (attrs : gmap string value) (o : op) : bool :=
  match o with
  | GetAttr name =>
      match LazyRegistry.lookup self attrs name with
      | Some _ => false
      | None => negb (bool_decide (name = "_on_redefinition"))
      end
  | SetAttr key _ => negb (bool_decide (key = "__class__"))
  | GetItem _ | Call _ _ => true
  | Iter => false
  end.

(** What [__init] does to a pending handle, in closed form. *)
Definition materialized (w : world) (l : loc) (args : list value) (d : loc)
    (kw : gmap string value) : result unit * world :=
  let kw' := <["on_redefinition" := VStr "raise"]> kw in
  let h1 := <[l := Object cUnitRegistry (params_table args d)]>
              (<[d := Object cDict kw']> (heap w)) in
  match bind_arguments UnitRegistry.signature args kw' with
  | Raise e => (Raise e, World h1 (outside w) (journal w))
  | Ok b =>
      let cfg := UnitRegistry.forwarded b in
      let j1 := journal w ++ [Setup l cfg] in
      match Generic_init cfg (params_table args d) (outside w) with
      | (Raise e, a1, e1) =>
          (Raise e, World (<[l := Object cUnitRegistry a1]> h1) e1 j1)
      | (Ok _, a1, e1) =>
          match registry_method "_after_init" [] ∅ a1 e1 with
          | (Raise e, a2, e2) =>
              (Raise e, World (<[l := Object cUnitRegistry a2]> h1) e2 j1)
          | (Ok _, a2, e2) =>
              (Ok tt, World (<[l := Object cUnitRegistry a2]> h1) e2 j1)
          end
      end
  end.

(** Collaborator code [f] neither reads nor writes the entry [k] of the
    instance table. *)
Definition ignores {A} (k : string) (f : ext env A) : Prop :=
  ∀ attrs e v, attrs !! k = None →
    (f attrs e).1.2 !! k = None ∧
    f (<[k := v]> attrs) e =
      ((f attrs e).1.1, <[k := v]> (f attrs e).1.2, (f attrs e).2).

(** The registry setup and [pi_theorem] do not depend on the entry
    [params] a materialized handle keeps, and the setup does not store an
    instance attribute [pi_theorem]. *)
Definition setup_independent : Prop :=
  (∀ cfg, ignores "params" (Generic_init cfg)) ∧
  ignores "params" (registry_method "_after_init" [] ∅) ∧
  (∀ q, ignores "params" (util_pi_theorem q)) ∧
  (∀ cfg, ignores "pi_theorem" (Generic_init cfg)) ∧
  ignores "pi_theorem" (registry_method "_after_init" [] ∅).

(** Modelled from the spec: the eager construction [UnitRegistry(args...,
    kwargs...)].  The instantiation protocol of the registry classes (their
    metaclass) is not in the sources; an eagerly constructed registry is
    taken to be a new instance on which [__init__] and then [_after_init]
    have run, the sequence the handle itself performs in place. *)
Definition eager_registry (args : list value) (kwargs : gmap string value) : M loc :=
  self ← alloc (Object cUnitRegistry ∅);
  UnitRegistry.__init__ self args kwargs;;
  run_ext self (registry_method "_after_init" [] ∅);;
  ret self.

(** A value that [set] accepts as a target. *)
Definition registry_like (w : world) (v : value) : Prop :=
  ∃ l o, v = VRef l ∧ heap w !! l = Some o ∧
         (ob_class o = cLazyRegistry ∨ ob_class o = cUnitRegistry).

(** [LazyRegistry(args, kwargs)]: a new instance, then [__init__]. *)
Definition new_LazyRegistry (args kwargs : value) : M loc :=
  self ← alloc (Object cLazyRegistry ∅);
  LazyRegistry.__init__ self args kwargs;;
  ret self.

End Specification.

(** ** The facet composition: base-class lists and linearisation *)

Module Facets.

Inductive facet :=
| system | context | dask | numpy | measurement | nonmultiplicative | plain.

(** The facet package each base class is imported from. *)
Definition provenance : list (string * facet) :=
  [ ("SystemQuantity", system); ("SystemUnit", system);
    ("GenericSystemRegistry", system);
    ("ContextQuantity", context); ("ContextUnit", context);
    ("GenericContextRegistry", context);
    ("DaskQuantity", dask); ("DaskUnit", dask);
    ("GenericDaskRegistry", dask);
    ("NumpyQuantity", numpy); ("NumpyUnit", numpy);
    ("GenericNumpyRegistry", numpy);
    ("MeasurementQuantity", measurement); ("MeasurementUnit", measurement);
    ("GenericMeasurementRegistry", measurement);
    ("NonMultiplicativeQuantity", nonmultiplicative);
    ("NonMultiplicativeUnit", nonmultiplicative);
    ("GenericNonMultiplicativeRegistry", nonmultiplicative);
    ("PlainQuantity", plain); ("PlainUnit", plain);
    ("GenericPlainRegistry", plain) ].

Definition facet_of (cls : string) : option facet :=
  (list_to_map provenance : gmap string facet) !! cls.

(** The bases of the three class statements, as written. *)
Definition Quantity_bases : list string :=
  [ "SystemQuantity"; "ContextQuantity"; "DaskQuantity"; "NumpyQuantity";
    "MeasurementQuantity"; "NonMultiplicativeQuantity"; "PlainQuantity";
    "Generic" ].

Definition Unit_bases : list string :=
  [ "SystemUnit"; "ContextUnit"; "DaskUnit"; "NumpyUnit"; "MeasurementUnit";
    "NonMultiplicativeUnit"; "PlainUnit" ].

Definition GenericUnitRegistry_bases : list string :=
  [ "GenericSystemRegistry"; "GenericContextRegistry"; "GenericDaskRegistry";
    "GenericNumpyRegistry"; "GenericMeasurementRegistry";
    "GenericNonMultiplicativeRegistry"; "GenericPlainRegistry" ].

(** [class GenericNumpyRegistry(GenericPlainRegistry)] *)
Definition GenericNumpyRegistry_bases : list string := [ "GenericPlainRegistry" ].

Definition composed : list (string * list string) :=
  [ ("Quantity", Quantity_bases); ("Unit", Unit_bases);
    ("GenericUnitRegistry", GenericUnitRegistry_bases) ].

Definition precedence : list facet :=
  [ system; context; dask; numpy; measurement; nonmultiplicative; plain ].

(** Python's C3 merge: repeatedly take the first head that is in the tail
    of no sequence; [None] is the [TypeError] of an inconsistent order. *)
Definition good_head (seqs : list (list string)) (h : string) : bool :=
  forallb (λ s, negb (bool_decide (h ∈ tail s))) seqs.

Definition candidate (seqs : list (list string)) : option string :=
  List.find (good_head seqs) (omap head seqs).

Definition strip (h : string) (s : list string) : list string :=
  match s with
  | x :: t => if decide (x = h) then t else s
  | [] => []
  end.

Definition live (seqs : list (list string)) : list (list string) :=
  List.filter (λ s, match s with [] => false | _ => true end) seqs.

Fixpoint merge (fuel : nat) (seqs : list (list string)) : option (list string) :=
  match live seqs with
  | [] => Some []
  | rest =>
      match fuel with
      | 0 => None
      | S n =>
          match candidate rest with
          | Some h => (h ::.) <$> merge n (strip h <$> rest)
          | None => None
          end
      end
  end.

(** Every round consumes an element, so their number is fuel enough. *)
Definition c3_merge (seqs : list (list string)) : option (list string) :=
  merge (length (concat seqs)) seqs.

(** The method resolution order of a class with direct bases [bases],
    from the orders [parents] of these bases. *)
Definition linearize (cls : string) (bases : list string)
    (parents : list (list string)) : option (list string) :=
  (cls ::.) <$> c3_merge (parents ++ [bases]).

(** Attribute lookup on a class: the first class of its order that
    defines the attribute. *)
Definition resolve (defines : string → bool) (mro : list string) : option string :=
  List.find defines mro.

(** [f] comes before [g] in [l]. *)
Definition precedes (f g : string) (l : list string) : Prop :=
  [f; g] `sublist_of` l.

(** The orders of the bases when every facet class derives from the
    plain one alone, as [GenericNumpyRegistry] does; [typing.Generic]
    derives from no class of the package. *)
Definition over_plain (bases : list string) (root : string) : list (list string) :=
  (λ b, if decide (b ∈ [root; "Generic"]) then [b] else [b; root]) <$> bases.

End Facets.

(** ** Concrete worlds *)

Module Worlds.

Definition X : Collaborators := Demo.collaborators.

Definition kw0 : gmap string value := {[ "on_redefinition" := VStr "warn" ]}.

(** A pending handle (0) with its dict (1), wrapped by a handle (2). *)
Definition w0 : @world X :=
  @World X
    {[ 0 := Object cLazyRegistry (params_table [] 1);
       1 := Object cDict kw0;
       2 := Object cApplicationRegistry {[ "_registry" := VRef 0 ]} ]}
    0 [].

(** As [w0], with a wrapper (3) of the wrapper (4) of the handle. *)
Definition w1 : @world X :=
  @World X
    {[ 0 := Object cLazyRegistry (params_table [] 1);
       1 := Object cDict kw0;
       2 := Object cApplicationRegistry {[ "_registry" := VRef 0 ]};
       3 := Object cApplicationRegistry {[ "_registry" := VRef 4 ]};
       4 := Object cApplicationRegistry {[ "_registry" := VRef 0 ]} ]}
    0 [].

(** A world with a materialized registry (0) and a wrapper (2) of it. *)
Definition w2 : @world X :=
  @World X
    {[ 0 := Object cUnitRegistry ∅;
       2 := Object cApplicationRegistry {[ "_registry" := VRef 0 ]} ]}
    0 [].

End Worlds.

(** ** Wrapping a registry; the operations a handle hands over *)

Section Wrapping.
Context `{Collaborators}.

(** [ApplicationRegistry(registry)]: a new instance, its slot unset, then
    [__init__]. *)
Definition new_ApplicationRegistry (rec : dispatch) (registry : value) : M loc :=
  self ← alloc (Object cApplicationRegistry ∅);
  ApplicationRegistry.__init__ rec self registry;;
  ret self.

(** The operations on a handle with slots [attrs] that its methods hand to
    the target: a read of a name ordinary lookup does not find, a write of
    a name that is no slot, a subscript, a call and [iter]. *)
Definition forwards (self : loc) (attrs : gmap string value) (o : op) : bool :=
  match o with
  | GetAttr name =>
      match ApplicationRegistry.lookup self attrs name with
      | Some _ => false
      | None => true
      end
  | SetAttr name _ => negb (bool_decide (name ∈ ApplicationRegistry.__slots__))
  | GetItem _ | Call _ _ | Iter => true
  end.

End Wrapping.

(** ** Worlds for the edge cases *)

Module Cases.

(** A pending handle (0) that stores six positional arguments. *)
Definition six : list value :=
  [VStr ""; VBool false; VBool false; VBool true; VBool false; VStr "ignore"].

Definition w3 : @world Worlds.X :=
  @World Worlds.X
    {[ 0 := Object cLazyRegistry (params_table six 1);
       1 := Object cDict ∅ ]}
    0 [].

(** An [ApplicationRegistry] (5) whose slot was never assigned, and a
    [LazyRegistry] (6) on which [__init__] never ran. *)
Definition w4 : @world Worlds.X :=
  @World Worlds.X
    {[ 0 := Object cUnitRegistry ∅;
       5 := Object cApplicationRegistry ∅;
       6 := Object cLazyRegistry ∅ ]}
    0 [].

(** A caller's dict (7) with one item, and an empty one (8). *)
Definition w5 : @world Worlds.X :=
  @World Worlds.X
    {[ 7 := Object cDict {[ "system" := VStr "SI" ]};
       8 := Object cDict ∅ ]}
    0 [].

End Cases.

(** * Properties *)

(** ** Running the monad *)

Section Run.
Context `{Collaborators}.

Lemma bind_ok {A B} (m : M A) (k : A → M B) w a w' :
  m w = (Ok a, w') → bind m k w = k a w'.
Proof. unfold bind. by intros ->. Qed.

Lemma bind_raise {A B} (m : M A) (k : A → M B) w e w' :
  m w = (Raise e, w') → bind m k w = (Raise e, w').
Proof. unfold bind. by intros ->. Qed.

Lemma bind_assoc {A B C} (m : M A) (k : A → M B) (k' : B → M C) w :
  bind (bind m k) k' w = bind m (λ a, bind (k a) k') w.
Proof. unfold bind. by destruct (m w) as [[a|e] w']. Qed.

Lemma get_object_run l w o : heap w !! l = Some o → get_object l w = (Ok o, w).
Proof. unfold get_object. by intros ->. Qed.

Lemma class_of_run l w o : heap w !! l = Some o → class_of l w = (Ok (ob_class o), w).
Proof. intros Hl. unfold class_of. by rewrite (bind_ok _ _ _ _ _ (get_object_run _ _ _ Hl)). Qed.

Lemma get_attrs_run l w o : heap w !! l = Some o → get_attrs l w = (Ok (ob_attrs o), w).
Proof. intros Hl. unfold get_attrs. by rewrite (bind_ok _ _ _ _ _ (get_object_run _ _ _ Hl)). Qed.

Lemma get_item_run l w o k v :
  heap w !! l = Some o → ob_attrs o !! k = Some v → get_item l k w = (Ok v, w).
Proof.
  intros Hl Hk. unfold get_item.
  rewrite (bind_ok _ _ _ _ _ (get_attrs_run _ _ _ Hl)). by rewrite Hk.
Qed.

Lemma set_item_run l w o k v :
  heap w !! l = Some o →
  set_item l k v w =
    (Ok tt, World (<[l := Object (ob_class o) (<[k := v]> (ob_attrs o))]> (heap w))
                  (outside w) (journal w)).
Proof. intros Hl. unfold set_item. by rewrite (bind_ok _ _ _ _ _ (get_object_run _ _ _ Hl)). Qed.

Lemma set_class_run l w o c :
  heap w !! l = Some o →
  set_class l c w =
    (Ok tt, World (<[l := Object c (ob_attrs o)]> (heap w)) (outside w) (journal w)).
Proof. intros Hl. unfold set_class. by rewrite (bind_ok _ _ _ _ _ (get_object_run _ _ _ Hl)). Qed.

Lemma run_ext_run {A} l (f : ext env A) w o :
  heap w !! l = Some o →
  run_ext l f w =
    ((f (ob_attrs o) (outside w)).1.1,
     World (<[l := Object (ob_class o) (f (ob_attrs o) (outside w)).1.2]> (heap w))
           (f (ob_attrs o) (outside w)).2 (journal w)).
Proof. intros Hl. unfold run_ext. rewrite Hl. by destruct (f _ _) as [[??]?]. Qed.

Lemma perform_ref n l o w ob :
  heap w !! l = Some ob →
  perform (S n) (VRef l) o w =
    match ob_class ob with
    | cLazyRegistry => LazyRegistry.perform (perform n) l o w
    | cUnitRegistry => UnitRegistry.perform l o w
    | cApplicationRegistry => ApplicationRegistry.perform (perform n) l o w
    | c => run_ext l (other_perform c o) w
    end.
Proof.
  intros Hl. cbn [perform]. rewrite (bind_ok _ _ _ _ _ (class_of_run _ _ _ Hl)).
  by destruct (ob_class ob).
Qed.

Lemma perform_bound n c l name args kwargs :
  perform (S n) (VBound c l name) (Call args kwargs) =
    match c with
    | cLazyRegistry => LazyRegistry.invoke (perform n) l name args kwargs
    | cUnitRegistry => UnitRegistry.invoke l name args kwargs
    | cApplicationRegistry => ApplicationRegistry.invoke (perform n) l name args kwargs
    | _ => run_ext l (other_method c name args kwargs)
    end.
Proof. by destruct c. Qed.

End Run.

(** ** Proof steps

    [step] runs the first action of a sequence once its outcome is known. *)

Ltac step :=
  lazymatch goal with
  | |- bind ?m ?k ?w = _ => erewrite (bind_ok m k w)
  end.
Ltac step_raise :=
  lazymatch goal with
  | |- bind ?m ?k ?w = _ => erewrite (bind_raise m k w)
  end.

(** ** Materialization of a pending handle *)

Section Materialization.
Context `{Collaborators}.

Lemma init_run n w l args d kw :
  pending w l args d kw →
  LazyRegistry.__init (perform (S n)) l w = materialized w l args d kw.
Proof.
  intros [Hl Hd].
  assert (l ≠ d) as Hne by (intros ->; rewrite Hl in Hd; discriminate).
  unfold LazyRegistry.__init, materialized.
  step; last by (eapply get_item_run; [done | apply lookup_singleton_eq]).
  step; last reflexivity. cbv beta match.
  step; last first.
  { unfold store_subscript. step; last by apply class_of_run.
    cbn [ob_class]. by apply set_item_run. }
  cbn [ob_class ob_attrs].
  set (w1 := World _ _ _).
  assert (heap w1 !! l = Some (Object cLazyRegistry (params_table args d))) as Hl1.
  { subst w1. cbn [heap]. by rewrite lookup_insert_ne. }
  step; last first.
  { erewrite perform_ref; last done. cbn [ob_class LazyRegistry.perform].
    step; last first.
    { unfold LazyRegistry.__setattr__. rewrite decide_True by done.
      unfold object_setattr. rewrite decide_True by done. cbn [layout_compatible].
      by apply set_class_run. }
    done. }
  cbn [ob_attrs]. subst w1. cbn [heap outside journal].
  set (w2 := World _ _ _).
  assert (heap w2 !! l = Some (Object cUnitRegistry (params_table args d))) as Hl2.
  { subst w2. cbn [heap]. by rewrite lookup_insert_eq. }
  assert (heap w2 !! d = Some (Object cDict (<["on_redefinition" := VStr "raise"]> kw))) as Hd2.
  { subst w2. cbn [heap]. rewrite lookup_insert_ne by done. by rewrite lookup_insert_eq. }
  step; last first.
  { erewrite perform_ref; last done. cbn [ob_class UnitRegistry.perform].
    unfold UnitRegistry.getattribute. rewrite decide_True by (unfold UnitRegistry.body; set_solver).
    step; last by apply get_attrs_run. cbn [ob_attrs]. unfold params_table.
    rewrite lookup_singleton_ne by done. done. }
  step; last done.
  step; last first.
  { unfold double_star. step; last by apply get_object_run. done. }
  cbn [ob_attrs]. rewrite perform_bound.
  unfold UnitRegistry.invoke. rewrite decide_True by done.
  unfold UnitRegistry.__init__.
  destruct (bind_arguments _ _ _) as [b|e] eqn:Hb.
  2:{ step_raise; last first.
      { step_raise; last first. { step_raise; done. } done. }
      subst w2. cbn [heap]. done. }
  unfold bind, lift, emit, run_ext, ret. cbn [heap outside journal].
  subst w2. cbn [heap outside journal]. rewrite lookup_insert_eq. cbn [ob_attrs ob_class].
  destruct (Generic_init _ _ _) as [[[[]|e] a1] e1]; cbn [heap outside journal]; last done.
  rewrite lookup_insert_eq. cbn [ob_attrs ob_class].
  destruct (registry_method _ _ _ _ _) as [[[v|e] a2] e2]; cbn [heap outside journal];
    by rewrite insert_insert_eq.
Qed.

Lemma bind_nothing : bind_arguments [] [] ∅ = Ok ∅.
Proof. reflexivity. Qed.

Lemma call_init_run n w l args d kw :
  pending w l args d kw →
  call_method (perform (S (S n))) (VRef l) "_LazyRegistry__init" [] ∅ w =
    (match (materialized w l args d kw).1 with Ok _ => Ok VNone | Raise e => Raise e end,
     (materialized w l args d kw).2).
Proof.
  intros Hp. pose proof Hp as [Hl Hd]. unfold call_method.
  step; last first.
  { erewrite perform_ref; last done. cbn [ob_class LazyRegistry.perform].
    unfold LazyRegistry.getattribute. step; last by apply get_attrs_run.
    cbn [ob_attrs]. reflexivity. }
  rewrite perform_bound. unfold LazyRegistry.invoke.
  rewrite decide_False by done. rewrite decide_True by done.
  step; last reflexivity.
  unfold bind. rewrite (init_run _ _ _ _ _ _ Hp).
  by destruct (materialized _ _ _ _ _) as [[[]|e] w'].
Qed.

Lemma materialized_lookup w l args d kw :
  ∃ a, heap (materialized w l args d kw).2 !! l = Some (Object cUnitRegistry a).
Proof.
  unfold materialized. destruct (bind_arguments _ _ _) as [b|e].
  - destruct (Generic_init _ _ _) as [[[[]|e] a1] e1].
    + destruct (registry_method _ _ _ _ _) as [[[v|e] a2] e2];
        eexists; cbn [snd heap]; apply lookup_insert_eq.
    + eexists; cbn [snd heap]; apply lookup_insert_eq.
  - eexists; cbn [snd heap]; apply lookup_insert_eq.
Qed.

Lemma touch_run n w l args d kw o :
  pending w l args d kw →
  triggers l (params_table args d) o = true →
  perform (S (S (S n))) (VRef l) o w =
    match materialized w l args d kw with
    | (Ok _, w') => UnitRegistry.perform l o w'
    | (Raise e, w') => (Raise e, w')
    end.
Proof.
  intros Hp Ht. pose proof Hp as [Hl Hd].
  pose proof (call_init_run n _ _ _ _ _ Hp) as Hc.
  destruct (materialized_lookup w l args d kw) as [a Ha].
  erewrite perform_ref; last done. cbn [ob_class].
  destruct (materialized w l args d kw) as [[[]|e] w'] eqn:Hm; cbn [fst snd] in *.
  - destruct o as [name|key v|item|args' kwargs'|]; cbn [LazyRegistry.perform triggers] in *.
    + unfold LazyRegistry.getattribute. step; last by apply get_attrs_run.
      cbn [ob_attrs]. destruct (LazyRegistry.lookup _ _ _); first done.
      unfold LazyRegistry.__getattr__. rewrite decide_False; last by (intros ->).
      step; last done. erewrite perform_ref; last done. done.
    + unfold LazyRegistry.__setattr__. rewrite decide_False; last by (intros ->).
      rewrite bind_assoc. rewrite (bind_ok _ _ _ _ _ Hc). cbv beta.
      unfold bind at 1 2. erewrite perform_ref; last done. cbn [ob_class UnitRegistry.perform].
      unfold bind, ret. by destruct (run_ext _ _ _) as [[[]|?] ?].
    + unfold LazyRegistry.__getitem__. step; last done.
      erewrite perform_ref; last done. done.
    + unfold LazyRegistry.__call__. step; last done.
      erewrite perform_ref; last done. done.
    + done.
  - destruct o as [name|key v|item|args' kwargs'|]; cbn [LazyRegistry.perform triggers] in *.
    + unfold LazyRegistry.getattribute. step; last by apply get_attrs_run.
      cbn [ob_attrs]. destruct (LazyRegistry.lookup _ _ _); first done.
      unfold LazyRegistry.__getattr__. rewrite decide_False; last by (intros ->).
      by step_raise.
    + unfold LazyRegistry.__setattr__. rewrite decide_False; last by (intros ->).
      rewrite bind_assoc. by step_raise.
    + unfold LazyRegistry.__getitem__. by step_raise.
    + unfold LazyRegistry.__call__. by step_raise.
    + done.
Qed.

Lemma registry_perform_frame w l a o :
  heap w !! l = Some (Object cUnitRegistry a) →
  journal (UnitRegistry.perform l o w).2 = journal w ∧
  ∃ a', heap (UnitRegistry.perform l o w).2 !! l = Some (Object cUnitRegistry a').
Proof.
  intros Hl. destruct o as [name|key v|item|args' kwargs'|]; cbn [UnitRegistry.perform].
  - unfold UnitRegistry.getattribute. case_decide.
    + rewrite (bind_ok _ _ _ _ _ (get_attrs_run _ _ _ Hl)). cbn [ob_attrs].
      destruct (a !! name); cbn; eauto.
    + unfold bind. rewrite (run_ext_run _ _ _ _ Hl). cbn [ob_attrs ob_class].
      destruct (registry_getattr _ _ _) as [[[[]|] ?] ?]; cbn; rewrite lookup_insert_eq; eauto.
  - unfold bind. rewrite (run_ext_run _ _ _ _ Hl). cbn [ob_attrs ob_class].
    destruct (registry_setattr _ _ _ _) as [[[|] ?] ?]; cbn; rewrite lookup_insert_eq; eauto.
  - rewrite (run_ext_run _ _ _ _ Hl). cbn. rewrite lookup_insert_eq; eauto.
  - rewrite (run_ext_run _ _ _ _ Hl). cbn. rewrite lookup_insert_eq; eauto.
  - rewrite (run_ext_run _ _ _ _ Hl). cbn. rewrite lookup_insert_eq; eauto.
Qed.

End Materialization.

Section Touch.
Context `{Collaborators}.

Lemma materialized_journal w l args d kw :
  journal (materialized w l args d kw).2 =
    journal w ++
    match bind_arguments UnitRegistry.signature args
            (<["on_redefinition" := VStr "raise"]> kw) with
    | Ok b => [Setup l (UnitRegistry.forwarded b)]
    | Raise _ => []
    end.
Proof.
  unfold materialized. destruct (bind_arguments _ _ _) as [b|e].
  - destruct (Generic_init _ _ _) as [[[[]|e] a1] e1]; last done.
    by destruct (registry_method _ _ _ _ _) as [[[v|e] a2] e2].
  - cbn. by rewrite app_nil_r.
Qed.

Lemma registry_perform_other w l a o l' :
  heap w !! l = Some (Object cUnitRegistry a) → l' ≠ l →
  heap (UnitRegistry.perform l o w).2 !! l' = heap w !! l'.
Proof.
  intros Hl Hne.
  destruct o as [name|key v|item|args' kwargs'|]; cbn [UnitRegistry.perform].
  - unfold UnitRegistry.getattribute. case_decide.
    + rewrite (bind_ok _ _ _ _ _ (get_attrs_run _ _ _ Hl)). cbn [ob_attrs].
      by destruct (a !! name).
    + unfold bind. rewrite (run_ext_run _ _ _ _ Hl). cbn [ob_attrs ob_class].
      destruct (registry_getattr _ _ _) as [[[[]|] ?] ?]; cbn; by rewrite lookup_insert_ne.
  - unfold bind. rewrite (run_ext_run _ _ _ _ Hl). cbn [ob_attrs ob_class].
    destruct (registry_setattr _ _ _ _) as [[[|] ?] ?]; cbn; by rewrite lookup_insert_ne.
  - rewrite (run_ext_run _ _ _ _ Hl). cbn. by rewrite lookup_insert_ne.
  - rewrite (run_ext_run _ _ _ _ Hl). cbn. by rewrite lookup_insert_ne.
  - rewrite (run_ext_run _ _ _ _ Hl). cbn. by rewrite lookup_insert_ne.
Qed.

(** What a triggering touch leaves: the world after [__init], passed
    through the registry's own operation when [__init] returned. *)
Lemma touch_world n w l args d kw o :
  pending w l args d kw →
  triggers l (params_table args d) o = true →
  let w' := (perform (S (S (S n))) (VRef l) o w).2 in
  journal w' = journal (materialized w l args d kw).2 ∧
  (∃ a, heap w' !! l = Some (Object cUnitRegistry a)) ∧
  (∀ l', l' ≠ l → heap w' !! l' = heap (materialized w l args d kw).2 !! l').
Proof.
  intros Hp Ht. cbv zeta. rewrite (touch_run _ _ _ _ _ _ _ Hp Ht).
  destruct (materialized_lookup w l args d kw) as [a Ha].
  destruct (materialized w l args d kw) as [[[]|e] w1]; cbn [snd] in *.
  - destruct (registry_perform_frame _ _ _ o Ha) as [Hj Hc].
    split_and!; [done..|]. intros l' Hne. by eapply registry_perform_other.
  - eauto.
Qed.

End Touch.

(** C1 (amended).  On a pending handle, a subscript, a call, a write of an
    attribute other than [__class__], or a read of an attribute that
    ordinary lookup does not find and that is not [_on_redefinition],
    performed with room for three nested calls, retypes the handle into a
    [UnitRegistry] and calls [UnitRegistry.__init__] once with the stored
    arguments: the journal grows by exactly one [Setup] when they fit the
    signature and by nothing when they do not.  Any later touch of the
    handle is the registry's own operation: it runs no setup and leaves the
    class in place. *)
Theorem lazy_touch_materializes_once `{Collaborators} n w l args d kw o :
  pending w l args d kw →
  triggers l (params_table args d) o = true →
  let w' := (perform (S (S (S n))) (VRef l) o w).2 in
  class_at w' l = Some cUnitRegistry ∧
  journal w' = journal w ++
    match bind_arguments UnitRegistry.signature args
            (<["on_redefinition" := VStr "raise"]> kw) with
    | Ok b => [Setup l (UnitRegistry.forwarded b)]
    | Raise _ => []
    end ∧
  ∀ m o',
    perform (S m) (VRef l) o' w' = UnitRegistry.perform l o' w' ∧
    journal (perform (S m) (VRef l) o' w').2 = journal w' ∧
    class_at (perform (S m) (VRef l) o' w').2 l = Some cUnitRegistry.
Proof.
  intros Hp Ht w'.
  destruct (touch_world n _ _ _ _ _ _ Hp Ht) as (Hj & [a Ha] & _). fold w' in Hj, Ha.
  split_and!.
  - unfold class_at. by rewrite Ha.
  - by rewrite Hj, materialized_journal.
  - intros m o'. rewrite (perform_ref _ _ _ _ _ Ha). cbn [ob_class].
    destruct (registry_perform_frame _ _ _ o' Ha) as [Hj' [a' Ha']].
    split_and!; [done..|]. unfold class_at. by rewrite Ha'.
Qed.

Lemma lazy_touch_materializes_once_witness :
  pending Worlds.w0 0 [] 1 Worlds.kw0 ∧
  triggers 0 (params_table [] 1) (GetItem VNone) = true ∧
  class_at (perform 3 (VRef 0) (GetItem VNone) Worlds.w0).2 0 = Some cUnitRegistry.
Proof.
  split_and!; [split; reflexivity | reflexivity |].
  apply (lazy_touch_materializes_once (H := Worlds.X) 0 Worlds.w0 0 [] 1 Worlds.kw0
           (GetItem VNone)); [split; reflexivity | reflexivity].
Defined.

Lemma lazy_read_on_redefinition_stays_pending :
  let r := perform 3 (VRef 0) (GetAttr "_on_redefinition") Worlds.w0 in
  pending Worlds.w0 0 [] 1 Worlds.kw0 ∧
  r.1 = Ok (VStr "raise") ∧
  class_at r.2 0 = Some cLazyRegistry ∧
  journal r.2 = [].
Proof. split_and!; [split|..]; reflexivity. Qed.

Section Exempt.
Context `{Collaborators}.

Lemma lazy_read_found n w l a name v :
  heap w !! l = Some (Object cLazyRegistry a) →
  LazyRegistry.lookup l a name = Some v →
  perform (S n) (VRef l) (GetAttr name) w = (Ok v, w).
Proof.
  intros Hl Hv. erewrite perform_ref; last done. cbn [ob_class LazyRegistry.perform].
  unfold LazyRegistry.getattribute. step; last by apply get_attrs_run.
  cbn [ob_attrs]. by rewrite Hv.
Qed.

Lemma lazy_read_on_redefinition n w l args d :
  heap w !! l = Some (Object cLazyRegistry (params_table args d)) →
  perform (S n) (VRef l) (GetAttr "_on_redefinition") w = (Ok (VStr "raise"), w).
Proof.
  intros Hl. erewrite perform_ref; last done. cbn [ob_class LazyRegistry.perform].
  unfold LazyRegistry.getattribute. step; last by apply get_attrs_run.
  cbn [ob_attrs]. reflexivity.
Qed.

Lemma lazy_write_class n w l a v :
  heap w !! l = Some (Object cLazyRegistry a) →
  perform (S n) (VRef l) (SetAttr "__class__" v) w =
    match v with
    | VClass c =>
        if layout_compatible c then
          (Ok VNone, World (<[l := Object c a]> (heap w)) (outside w) (journal w))
        else (Raise (TypeError "__class__ assignment: object layout differs"), w)
    | _ => (Raise (TypeError "__class__ must be set to a class"), w)
    end.
Proof.
  intros Hl. erewrite perform_ref; last done. cbn [ob_class LazyRegistry.perform].
  unfold LazyRegistry.__setattr__. rewrite decide_True by done.
  unfold object_setattr. rewrite decide_True by done.
  destruct v as [| | | | |c| | | |]; try done.
  destruct (layout_compatible c); last done.
  by rewrite (bind_ok _ _ _ _ _ (set_class_run _ _ _ c Hl)).
Qed.

Lemma touch_classified l a o :
  o ≠ Iter →
  triggers l a o = true ∨
  o = GetAttr "_on_redefinition" ∨
  (∃ v, o = SetAttr "__class__" v) ∨
  (∃ name v, o = GetAttr name ∧ LazyRegistry.lookup l a name = Some v).
Proof.
  intros Hi. destruct o as [name|key v|item|args' kwargs'|]; cbn [triggers]; [| |by left..|done].
  - destruct (LazyRegistry.lookup l a name) as [v|] eqn:Hv; first by (right; right; right; eauto).
    destruct (decide (name = "_on_redefinition")) as [->|Hne]; first by (right; left).
    left. by rewrite bool_decide_eq_false_2.
  - destruct (decide (key = "__class__")) as [->|Hne]; first by (right; right; left; eauto).
    left. by rewrite bool_decide_eq_false_2.
Qed.

End Exempt.

(** C9 (amended).  On a pending handle, reading [_on_redefinition] returns
    ["raise"] and changes nothing; writing [__class__] either assigns the
    class of the handle, when the value is a layout-compatible class, or
    raises [TypeError], and changes nothing else; a read of a name that ordinary lookup resolves
    ([params], the methods of the class, the attributes of [object])
    returns it and changes nothing.  Every other read, write, subscript or
    call materializes the handle, and a read, write, subscript or call is
    always of one of these kinds. *)
Theorem lazy_exempt_paths `{Collaborators} n w l args d kw :
  pending w l args d kw →
  perform (S n) (VRef l) (GetAttr "_on_redefinition") w = (Ok (VStr "raise"), w) ∧
  (∀ v,
     perform (S n) (VRef l) (SetAttr "__class__" v) w =
       match v with
       | VClass c =>
           if layout_compatible c then
             (Ok VNone,
              World (<[l := Object c (params_table args d)]> (heap w))
                    (outside w) (journal w))
           else (Raise (TypeError "__class__ assignment: object layout differs"), w)
       | _ => (Raise (TypeError "__class__ must be set to a class"), w)
       end) ∧
  (∀ name v, LazyRegistry.lookup l (params_table args d) name = Some v →
     perform (S n) (VRef l) (GetAttr name) w = (Ok v, w)) ∧
  (∀ o, triggers l (params_table args d) o = true →
     class_at (perform (S (S (S n))) (VRef l) o w).2 l = Some cUnitRegistry) ∧
  (∀ o, o ≠ Iter →
     triggers l (params_table args d) o = true ∨
     o = GetAttr "_on_redefinition" ∨
     (∃ v, o = SetAttr "__class__" v) ∨
     (∃ name v, o = GetAttr name ∧
        LazyRegistry.lookup l (params_table args d) name = Some v)).
Proof.
  intros Hp. pose proof Hp as [Hl Hd]. split_and!.
  - by eapply lazy_read_on_redefinition.
  - intros v. by apply lazy_write_class.
  - intros name v Hv. by eapply lazy_read_found.
  - intros o Ht. destruct (touch_world n _ _ _ _ _ _ Hp Ht) as (_ & [a Ha] & _).
    unfold class_at. by rewrite Ha.
  - intros o. apply touch_classified.
Qed.

Lemma lazy_exempt_paths_witness :
  pending Worlds.w0 0 [] 1 Worlds.kw0 ∧
  perform 1 (VRef 0) (GetAttr "_on_redefinition") Worlds.w0 = (Ok (VStr "raise"), Worlds.w0).
Proof.
  split; [split; reflexivity |].
  refine (proj1 (lazy_exempt_paths (H := Worlds.X) 0 Worlds.w0 0 [] 1 Worlds.kw0 _)).
  split; reflexivity.
Defined.

Lemma lazy_read_params_stays_pending :
  let r := perform 3 (VRef 0) (GetAttr "params") Worlds.w0 in
  pending Worlds.w0 0 [] 1 Worlds.kw0 ∧
  r.1 = Ok (VTuple [VTuple []; VRef 1]) ∧
  class_at r.2 0 = Some cLazyRegistry ∧
  journal r.2 = [].
Proof. split_and!; [split|..]; reflexivity. Qed.

Section Binding.
Context `{Collaborators}.

Lemma bind_arguments_Ok sig args kwargs b :
  bind_arguments sig args kwargs = Ok b →
  b = kwargs ∪ list_to_map (zip sig.*1 args)
        ∪ list_to_map (omap (λ p, (p.1,.) <$> p.2) sig) ∧
  kwargs ##ₘ list_to_map (zip sig.*1 args).
Proof.
  unfold bind_arguments. repeat case_decide; try done. by intros [= <-].
Qed.

Lemma bind_arguments_keyword sig args kwargs b k v :
  bind_arguments sig args kwargs = Ok b → kwargs !! k = Some v → b !! k = Some v.
Proof.
  intros [-> _]%bind_arguments_Ok Hk.
  apply lookup_union_Some_l. by apply lookup_union_Some_l.
Qed.

Lemma forwarded_lookup_gen (b : gmap string value) names k :
  (list_to_map (omap (λ n, (n,.) <$> b !! n) names) : gmap string value) !! k =
    if decide (k ∈ names) then b !! k else None.
Proof.
  induction names as [|n names IH]; first done.
  assert ((list_to_map (omap (λ n, (n,.) <$> b !! n) (n :: names))
            : gmap string value) !! k =
          if decide (k = n) then b !! k
          else (list_to_map (omap (λ n, (n,.) <$> b !! n) names)
                 : gmap string value) !! k) as ->.
  { cbn [omap list_omap]. destruct (b !! n) as [v|] eqn:Hn;
      cbn [fmap option_fmap option_map].
    - rewrite list_to_map_cons. destruct (decide (k = n)) as [->|Hk].
      + by rewrite lookup_insert_eq.
      + by rewrite lookup_insert_ne.
    - destruct (decide (k = n)) as [->|Hk]; last done.
      rewrite IH, Hn. by case_decide. }
  rewrite IH. destruct (decide (k = n)) as [->|Hne].
  - by rewrite decide_True by left.
  - destruct (decide (k ∈ names)) as [Hin|Hin].
    + by rewrite decide_True by (by right).
    + by rewrite decide_False by (by intros [?|?]%elem_of_cons).
Qed.

Lemma forwarded_lookup b k :
  k ∈ UnitRegistry.super_keywords → UnitRegistry.forwarded b !! k = b !! k.
Proof.
  intros Hk. unfold UnitRegistry.forwarded. rewrite forwarded_lookup_gen.
  by rewrite decide_True.
Qed.

Lemma forwarded_on_redefinition b :
  UnitRegistry.forwarded b !! "on_redefinition" = b !! "on_redefinition".
Proof. apply forwarded_lookup. unfold UnitRegistry.super_keywords. by repeat constructor. Qed.

End Binding.

(** C2.  Whatever the stored keyword arguments hold under
    [on_redefinition] (any value, or none), every setup that a touch of a
    pending handle runs is a setup of that handle with
    [on_redefinition = "raise"]; one such setup runs whenever the stored
    arguments fit the signature; and the stored dict itself now holds
    ["raise"]. *)
Theorem lazy_forces_raise `{Collaborators} n w l args d kw o :
  pending w l args d kw →
  triggers l (params_table args d) o = true →
  let w' := (perform (S (S (S n))) (VRef l) o w).2 in
  let kw' := <["on_redefinition" := VStr "raise"]> kw in
  ∃ evs, journal w' = journal w ++ evs ∧
    (∀ self cfg, Setup self cfg ∈ evs →
       self = l ∧ cfg !! "on_redefinition" = Some (VStr "raise")) ∧
    (∀ b, bind_arguments UnitRegistry.signature args kw' = Ok b →
       evs = [Setup l (UnitRegistry.forwarded b)]) ∧
    table_at w' d = Some kw'.
Proof.
  intros Hp Ht w' kw'.
  destruct (touch_world n _ _ _ _ _ _ Hp Ht) as (Hj & _ & Hother). fold w' in Hj, Hother.
  assert (l ≠ d) as Hne by (destruct Hp as [Hl Hd]; intros ->; rewrite Hl in Hd; discriminate).
  eexists. split; first by rewrite Hj, materialized_journal. split_and!.
  - intros self cfg Hin. fold kw' in Hin.
    destruct (bind_arguments _ _ _) as [b|e] eqn:Hb; last by apply elem_of_nil in Hin.
    apply list_elem_of_singleton in Hin as [= -> ->]. split; first done.
    rewrite forwarded_on_redefinition.
    eapply bind_arguments_keyword; first done. apply lookup_insert_eq.
  - intros b Hb. fold kw'. by rewrite Hb.
  - unfold table_at. rewrite Hother by done.
    assert (heap (materialized w l args d kw).2 !! d = Some (Object cDict kw')) as ->; last done.
    unfold materialized. fold kw'.
    destruct (bind_arguments _ _ _) as [b|e].
    + destruct (Generic_init _ _ _) as [[[[]|e] a1] e1].
      * destruct (registry_method _ _ _ _ _) as [[[v|e] a2] e2]; cbn [snd heap];
          rewrite !lookup_insert_ne by done; apply lookup_insert_eq.
      * cbn [snd heap]. rewrite !lookup_insert_ne by done. apply lookup_insert_eq.
    + cbn [snd heap]. rewrite !lookup_insert_ne by done. apply lookup_insert_eq.
Qed.

Lemma lazy_forces_raise_witness :
  pending Worlds.w0 0 [] 1 Worlds.kw0 ∧
  triggers 0 (params_table [] 1) (Call [] ∅) = true ∧
  ∃ evs, journal (perform 3 (VRef 0) (Call [] ∅) Worlds.w0).2 = journal Worlds.w0 ++ evs ∧
    (∀ self cfg, Setup self cfg ∈ evs →
       self = 0 ∧ cfg !! "on_redefinition" = Some (VStr "raise")) ∧
    (∀ b, bind_arguments UnitRegistry.signature []
            (<["on_redefinition" := VStr "raise"]> Worlds.kw0) = Ok b →
       evs = [Setup 0 (UnitRegistry.forwarded b)]) ∧
    table_at (perform 3 (VRef 0) (Call [] ∅) Worlds.w0).2 1 =
      Some (<["on_redefinition" := VStr "raise"]> Worlds.kw0).
Proof.
  split_and!; [split; reflexivity | reflexivity |].
  apply (lazy_forces_raise (H := Worlds.X) 0 Worlds.w0 0 [] 1 Worlds.kw0 (Call [] ∅));
    [split; reflexivity | reflexivity].
Defined.

(** C10.  When [UnitRegistry.__init__] is called with at most five
    positional arguments and no [on_redefinition] keyword, and the arguments
    bind, the keyword [on_redefinition] of the [super().__init__] call is
    ["warn"]; when they do not bind no setup is run. *)
Theorem default_policy_is_warn `{Collaborators} self args kwargs w :
  (length args ≤ 5)%nat →
  kwargs !! "on_redefinition" = None →
  match bind_arguments UnitRegistry.signature args kwargs with
  | Ok b =>
      UnitRegistry.forwarded b !! "on_redefinition" = Some (VStr "warn") ∧
      journal (UnitRegistry.__init__ self args kwargs w).2 =
        journal w ++ [Setup self (UnitRegistry.forwarded b)]
  | Raise e => journal (UnitRegistry.__init__ self args kwargs w).2 = journal w
  end.
Proof.
  intros Hlen Hkw. unfold UnitRegistry.__init__.
  destruct (bind_arguments _ _ _) as [b|e] eqn:Hb; last done.
  split.
  - rewrite forwarded_on_redefinition.
    apply bind_arguments_Ok in Hb as [-> _].
    rewrite lookup_union_r.
    + reflexivity.
    + apply lookup_union_None. split; first done.
      do 6 (destruct args as [|? args]; first reflexivity). cbn in Hlen. lia.
  - unfold bind, lift, emit, run_ext. cbn [heap outside journal].
    destruct (heap w !! self); last done.
    by destruct (Generic_init _ _ _) as [[??]?].
Qed.

Lemma default_policy_is_warn_witness :
  (length ([VStr ""] : list value) ≤ 5)%nat ∧
  (∅ : gmap string value) !! "on_redefinition" = None ∧
  match bind_arguments UnitRegistry.signature [VStr ""] ∅ with
  | Ok b =>
      UnitRegistry.forwarded b !! "on_redefinition" = Some (VStr "warn") ∧
      journal (UnitRegistry.__init__ (H := Worlds.X) 0 [VStr ""] ∅ Worlds.w2).2 =
        journal Worlds.w2 ++ [Setup 0 (UnitRegistry.forwarded b)]
  | Raise e => journal (UnitRegistry.__init__ (H := Worlds.X) 0 [VStr ""] ∅ Worlds.w2).2 = journal Worlds.w2
  end.
Proof.
  split_and!; [cbn; lia | reflexivity |].
  apply (default_policy_is_warn (H := Worlds.X) 0 [VStr ""] ∅ Worlds.w2); [cbn; lia | reflexivity].
Defined.

(** ** Construction of a handle *)

Section Construction.
Context `{Collaborators}.

Lemma truthy_cases v w :
  truthy v w = (Ok true, w) ∨ truthy v w = (Ok false, w) ∨
  truthy v w = (Raise SystemError, w) ∧ ∃ l, v = VRef l ∧ heap w !! l = None.
Proof.
  destruct v as [|[]|n|s|[|??]|c|l|???|l|??]; cbn [truthy]; unfold ret; eauto.
  - destruct (negb _); eauto.
  - destruct (negb _); eauto.
  - unfold bind, get_object. destruct (heap w !! l) as [o|] eqn:Hl; last by eauto 6.
    destruct (ob_class o); unfold ret; eauto. destruct (negb _); eauto.
Qed.

(** [v or d], by the truth value of [v]. *)
Lemma or_else_truthy v (d : M value) w b :
  truthy v w = (Ok b, w) → or_else v d w = if b then (Ok v, w) else d w.
Proof. intros Ht. unfold or_else, bind. rewrite Ht. by destruct b. Qed.

(** Creating an object does not change the truth value of a value that
    was there before. *)
Lemma truthy_alloc v w l o b :
  heap w !! l = None →
  truthy v w = (Ok b, w) →
  truthy v (World (<[l := o]> (heap w)) (outside w) (journal w)) =
    (Ok b, World (<[l := o]> (heap w)) (outside w) (journal w)).
Proof.
  intros Hl. destruct v as [|[]|n|s|[|??]|c|l'|???|l'|??]; cbn [truthy]; unfold ret;
    try by intros [= <-].
  unfold bind, get_object. cbn [heap].
  destruct (heap w !! l') as [o'|] eqn:Hl'; last done.
  rewrite lookup_insert_ne by (intros ->; by rewrite Hl in Hl').
  rewrite Hl'. destruct (ob_class o'); unfold ret; by intros [= <-].
Qed.

End Construction.

(** C8.  Constructing a handle runs no setup, leaves the collaborators'
    state and every existing object as they were, and creates the handle,
    whose table holds the single entry [params], a pair.  Its first
    component is [args] when [args] is true and the empty tuple when it is
    false; its second is [kwargs] itself when [kwargs] is true and a new
    empty dict when it is false.  The truth values are those the arguments
    have when the body of the constructor runs, which are the ones they have
    for the caller.  The only failure is a dangling argument. *)
Theorem lazy_construction_only_records `{Collaborators} args kwargs w :
  let r := new_LazyRegistry args kwargs w in
  journal r.2 = journal w ∧
  outside r.2 = outside w ∧
  (∀ l o, heap w !! l = Some o → heap r.2 !! l = Some o) ∧
  match r.1 with
  | Ok self =>
      let w0 := World (<[self := Object cLazyRegistry ∅]> (heap w))
                      (outside w) (journal w) in
      heap w !! self = None ∧
      ∃ ta tk a k,
        truthy args w0 = (Ok ta, w0) ∧
        truthy kwargs w0 = (Ok tk, w0) ∧
        (∀ b, truthy args w = (Ok b, w) → ta = b) ∧
        (∀ b, truthy kwargs w = (Ok b, w) → tk = b) ∧
        heap r.2 !! self = Some (Object cLazyRegistry {[ "params" := VTuple [a; k] ]}) ∧
        a = (if ta then args else VTuple []) ∧
        if tk then
          k = kwargs ∧ ∀ l, l ≠ self → heap r.2 !! l = heap w !! l
        else
          ∃ d, k = VRef d ∧ d ≠ self ∧ heap w !! d = None ∧
               heap r.2 !! d = Some (Object cDict ∅) ∧
               ∀ l, l ≠ self → l ≠ d → heap r.2 !! l = heap w !! l
  | Raise e =>
      e = SystemError ∧
      ∃ l, (args = VRef l ∨ kwargs = VRef l) ∧ heap w !! l = None
  end.
Proof.
  cbv zeta. destruct (new_LazyRegistry args kwargs w) as [r w'] eqn:Hrun.
  cbn [fst snd]. revert Hrun. unfold new_LazyRegistry.
  set (self := fresh (dom (heap w))).
  assert (heap w !! self = None) as Hfresh.
  { apply not_elem_of_dom. apply is_fresh. }
  set (w1 := World (<[self := Object cLazyRegistry ∅]> (heap w)) (outside w) (journal w)).
  assert (∀ l o, heap w !! l = Some o → l ≠ self) as Hold.
  { intros l o Hl ->. by rewrite Hfresh in Hl. }
  assert (∀ l, heap w1 !! l = None → heap w !! l = None) as Hmiss.
  { intros l. subst w1. cbn [heap]. by intros [? _]%lookup_insert_None. }
  assert (∀ v b b', truthy v w1 = (Ok b, w1) → truthy v w = (Ok b', w) → b = b') as Hsame.
  { intros v b b' Hb Hb'. apply (truthy_alloc _ _ self (Object cLazyRegistry ∅)) in Hb';
      last done. fold w1 in Hb'. congruence. }
  rewrite (bind_ok _ _ w self w1) by done.
  unfold LazyRegistry.__init__. rewrite bind_assoc. unfold bind at 1.
  destruct (truthy_cases args w1) as [Ha | [Ha | [Ha (la & -> & Hla)]]].
  3:{ unfold or_else, bind at 1. rewrite Ha.
      intros [= <- <-]. subst w1. cbn [heap outside journal].
      split_and!; [done..| |done|by eauto].
      intros l o Hl. rewrite lookup_insert_ne; first done. intros <-. by eapply Hold. }
  all: rewrite (or_else_truthy _ _ _ _ Ha); unfold ret at 1;
    rewrite bind_assoc; unfold bind at 1;
    destruct (truthy_cases kwargs w1) as [Hk | [Hk | [Hk (lk & -> & Hlk)]]].
  3,6: unfold or_else, bind at 1; rewrite Hk;
      intros [= <- <-]; subst w1; cbn [heap outside journal];
      (split_and!; [done..| |done|by eauto]);
      intros l o Hl; rewrite lookup_insert_ne; [done|]; intros <-; by eapply Hold.
  all: rewrite (or_else_truthy _ _ _ _ Hk).
  all: unfold alloc, set_item; unfold bind, get_object, put_object, ret;
       cbn [heap outside journal fst snd ob_class ob_attrs].
  all: try set (d := fresh (dom (heap w1))).
  all: try assert (d ≠ self ∧ heap w !! d = None) as [Hd1 Hd2]
         by (pose proof (is_fresh (dom (heap w1))) as Hd;
             fold d in Hd; subst w1; cbn [heap] in Hd; rewrite dom_insert_L in Hd;
             split; [intros Heq; apply Hd; rewrite Heq;
                     by apply elem_of_union_l, elem_of_singleton
                    | apply not_elem_of_dom; intros Hin; by apply Hd, elem_of_union_r]).
  all: subst w1; cbn [heap outside journal] in *.
  all: rewrite ?lookup_insert_eq, ?(lookup_insert_ne _ d self) by done;
       rewrite ?lookup_insert_eq;
       cbn [heap outside journal fst snd ob_class ob_attrs].
  all: intros [= <- <-]; cbn [heap outside journal].
  all: split_and!; [done|done| |done|].
  all: try (intros l o Hl; rewrite !lookup_insert_ne; [done|..]; intros <-;
            first [by eapply Hold | by rewrite Hd2 in Hl]).
  all: eexists _, _, _, _; rewrite lookup_insert_eq, insert_empty.
  all: split_and!; [exact Ha | exact Hk
                   | intros b Hb; exact (Hsame _ _ _ Ha Hb)
                   | intros b Hb; exact (Hsame _ _ _ Hk Hb)
                   | reflexivity | reflexivity |].
  - split; first done. intros l Hl. by rewrite !lookup_insert_ne.
  - exists d. split_and!; [done..| |].
    + rewrite lookup_insert_ne by done. by rewrite lookup_insert_eq.
    + intros l Hl Hl'. by rewrite !lookup_insert_ne.
  - split; first done. intros l Hl. by rewrite !lookup_insert_ne.
  - exists d. split_and!; [done..| |].
    + rewrite lookup_insert_ne by done. by rewrite lookup_insert_eq.
    + intros l Hl Hl'. by rewrite !lookup_insert_ne.
Qed.

(** ** The application registry *)

Section Application.
Context `{Collaborators}.

Lemma app_read_slot n w h a r :
  heap w !! h = Some (Object cApplicationRegistry a) →
  a !! "_registry" = Some r →
  perform (S n) (VRef h) (GetAttr "_registry") w = (Ok r, w).
Proof.
  intros Hh Hr. erewrite perform_ref; last done.
  cbn [ob_class ApplicationRegistry.perform].
  unfold ApplicationRegistry.getattribute. step; last by apply get_attrs_run.
  cbn [ob_attrs]. unfold ApplicationRegistry.lookup.
  rewrite decide_False by done. rewrite decide_True by (by left).
  by rewrite Hr.
Qed.

Lemma app_write_slot n w h a v :
  heap w !! h = Some (Object cApplicationRegistry a) →
  perform (S n) (VRef h) (SetAttr "_registry" v) w =
    (Ok VNone,
     World (<[h := Object cApplicationRegistry (<["_registry" := v]> a)]> (heap w))
           (outside w) (journal w)).
Proof.
  intros Hh. erewrite perform_ref; last done.
  cbn [ob_class ApplicationRegistry.perform].
  unfold ApplicationRegistry.__setattr__. rewrite decide_True by (by left).
  unfold object_setattr. rewrite decide_False by done.
  by rewrite (bind_ok _ _ _ _ _ (set_item_run _ _ _ _ _ Hh)).
Qed.

Lemma app_get n w h a r :
  heap w !! h = Some (Object cApplicationRegistry a) →
  a !! "_registry" = Some r →
  ApplicationRegistry.get (perform (S n)) h w = (Ok r, w).
Proof. apply app_read_slot. Qed.

Lemma app_call_get n w h a r :
  heap w !! h = Some (Object cApplicationRegistry a) →
  a !! "_registry" = Some r →
  call_method (perform (S (S n))) (VRef h) "get" [] ∅ w = (Ok r, w).
Proof.
  intros Hh Hr. unfold call_method. step; last first.
  { erewrite perform_ref; last done. cbn [ob_class ApplicationRegistry.perform].
    unfold ApplicationRegistry.getattribute. step; last by apply get_attrs_run.
    cbn [ob_attrs]. reflexivity. }
  rewrite perform_bound. unfold ApplicationRegistry.invoke.
  rewrite decide_False by done. rewrite decide_True by done.
  step; last reflexivity. by eapply app_get.
Qed.

Lemma isinstance_run v cs w c :
  type_of v w = (Ok c, w) → isinstance v cs w = (Ok (bool_decide (c ∈ cs)), w).
Proof. intros Hc. unfold isinstance. by rewrite (bind_ok _ _ _ _ _ Hc). Qed.

Lemma type_of_ref l w o : heap w !! l = Some o → type_of (VRef l) w = (Ok (ob_class o), w).
Proof. apply class_of_run. Qed.

(** [set] with a target that needs no unwrapping. *)
Lemma app_set_direct n w h a old x :
  heap w !! h = Some (Object cApplicationRegistry a) →
  a !! "_registry" = Some old →
  registry_like w x →
  ApplicationRegistry.set (perform (S n)) h x w =
    (Ok tt,
     World (<[h := Object cApplicationRegistry (<["_registry" := x]> a)]> (heap w))
           (outside w)
           (journal w ++ [Debug "Changing app registry from %r to %r." [old; x]])).
Proof.
  intros Hh Hold (l & o & -> & Hl & Hc). unfold ApplicationRegistry.set.
  step; last by apply type_of_ref. cbn [ob_class].
  step; last by (apply isinstance_run, type_of_ref).
  rewrite bool_decide_eq_false_2; last first.
  { intros Hin%list_elem_of_singleton. destruct Hc; congruence. }
  step; last done.
  step; last by (apply isinstance_run, type_of_ref).
  rewrite bool_decide_eq_true_2; last first.
  { destruct Hc as [-> | ->]; [by left | by right; left]. }
  cbn [negb].
  step; last by eapply app_read_slot.
  step; last done.
  step; last first.
  { erewrite perform_ref; last by apply Hh.
    cbn [ob_class ApplicationRegistry.perform].
    unfold ApplicationRegistry.__setattr__. rewrite decide_True by (by left).
    unfold object_setattr. rewrite decide_False by done.
    erewrite bind_ok; last by (apply set_item_run; apply Hh). done. }
  done.
Qed.

End Application.

(** C3 (amended).  On a handle with a target: [set(x)] followed by [get()]
    returns [x] when [x] is a [LazyRegistry] or a [UnitRegistry]; and when
    [x] is an [ApplicationRegistry] whose own target [t] is a [LazyRegistry]
    or a [UnitRegistry], [x.get()] is [t] and [set(x)] followed by [get()]
    returns [t]. *)
Theorem set_get_roundtrip `{Collaborators} n w h a old x :
  heap w !! h = Some (Object cApplicationRegistry a) →
  a !! "_registry" = Some old →
  (registry_like w x →
   let r := ApplicationRegistry.set (perform (S (S n))) h x w in
   r.1 = Ok tt ∧ ∀ m, ApplicationRegistry.get (perform (S m)) h r.2 = (Ok x, r.2)) ∧
  (∀ lx ax t,
     x = VRef lx →
     heap w !! lx = Some (Object cApplicationRegistry ax) →
     ax !! "_registry" = Some t →
     registry_like w t →
     let r := ApplicationRegistry.set (perform (S (S n))) h x w in
     ApplicationRegistry.get (perform (S n)) lx w = (Ok t, w) ∧
     r.1 = Ok tt ∧
     ∀ m, ApplicationRegistry.get (perform (S m)) h r.2 = (Ok t, r.2)).
Proof.
  intros Hh Hold. split.
  - intros Hx. cbv zeta. rewrite (app_set_direct _ _ _ _ _ _ Hh Hold Hx).
    split; first done. intros m. eapply app_get.
    + cbn [snd heap]. apply lookup_insert_eq.
    + apply lookup_insert_eq.
  - intros lx ax t -> Hlx Ht Hlike. cbv zeta.
    split; first by eapply app_get.
    assert (ApplicationRegistry.set (perform (S (S n))) h (VRef lx) w =
            ApplicationRegistry.set (perform (S (S n))) h t w) as ->.
    { unfold ApplicationRegistry.set.
      step; last by apply type_of_ref. cbn [ob_class].
      step; last by (apply isinstance_run, type_of_ref).
      cbn [ob_class]. rewrite bool_decide_eq_true_2 by (by left).
      step; last by eapply app_call_get.
      destruct Hlike as (l & o & -> & Hl & Hc).
      symmetry.
      step; last by apply type_of_ref. cbn [ob_class].
      step; last by (apply isinstance_run, type_of_ref).
      rewrite bool_decide_eq_false_2; last first.
      { intros Hin%list_elem_of_singleton. destruct Hc; congruence. }
      by step. }
    rewrite (app_set_direct _ _ _ _ _ _ Hh Hold Hlike).
    split; first done. intros m. eapply app_get.
    + cbn [snd heap]. apply lookup_insert_eq.
    + apply lookup_insert_eq.
Qed.

Lemma set_get_roundtrip_witness :
  heap Worlds.w0 !! 2 = Some (Object cApplicationRegistry {[ "_registry" := VRef 0 ]}) ∧
  ({[ "_registry" := VRef 0 ]} : gmap string value) !! "_registry" = Some (VRef 0) ∧
  registry_like Worlds.w0 (VRef 0) ∧
  (ApplicationRegistry.set (perform 2) 2 (VRef 0) Worlds.w0).1 = Ok tt.
Proof.
  assert (registry_like Worlds.w0 (VRef 0)) as Hlike.
  { exists 0, (Object cLazyRegistry (params_table [] 1)).
    split_and!; [reflexivity | reflexivity | by left]. }
  split_and!; [reflexivity | reflexivity | exact Hlike |].
  refine (proj1 (proj1 (set_get_roundtrip (H := Worlds.X) 0 Worlds.w0 2
            {[ "_registry" := VRef 0 ]} (VRef 0) (VRef 0) _ _) Hlike));
    reflexivity.
Defined.

Lemma set_nested_wrapper_rejected :
  let r := ApplicationRegistry.set (perform 5) 2 (VRef 3) Worlds.w1 in
  class_at Worlds.w1 3 = Some cApplicationRegistry ∧
  ApplicationRegistry.get (perform 5) 3 Worlds.w1 = (Ok (VRef 4), Worlds.w1) ∧
  r.1 = Raise (TypeError
          "Expected UnitRegistry; got <class 'pint.registry.ApplicationRegistry'>") ∧
  ApplicationRegistry.get (perform 5) 2 r.2 = (Ok (VRef 0), r.2).
Proof. split_and!; reflexivity. Qed.

(** C4.  On a handle, [set] of a candidate whose class is none of
    [UnitRegistry], [LazyRegistry], [ApplicationRegistry] raises [TypeError]
    with the message "Expected UnitRegistry; got " followed by the class of
    the candidate, and leaves the whole world, hence what [get] returns,
    unchanged. *)
Theorem set_rejects_other_types `{Collaborators} n w h a x c :
  heap w !! h = Some (Object cApplicationRegistry a) →
  type_of x w = (Ok c, w) →
  c ∉ [cUnitRegistry; cLazyRegistry; cApplicationRegistry] →
  ApplicationRegistry.set (perform n) h x w =
    (Raise (TypeError ("Expected UnitRegistry; got " +:+ repr_class c)), w) ∧
  ∀ m, ApplicationRegistry.get (perform m) h
         (ApplicationRegistry.set (perform n) h x w).2 =
       ApplicationRegistry.get (perform m) h w.
Proof.
  intros Hh Hc Hnot.
  assert (ApplicationRegistry.set (perform n) h x w =
    (Raise (TypeError ("Expected UnitRegistry; got " +:+ repr_class c)), w)) as Hset.
  { unfold ApplicationRegistry.set.
    step; last by apply type_of_ref. cbn [ob_class].
    step; last by apply isinstance_run.
    rewrite bool_decide_eq_false_2; last first.
    { intros ->%list_elem_of_singleton. apply Hnot. by do 2 right; left. }
    step; last done.
    step; last by apply isinstance_run.
    rewrite bool_decide_eq_false_2; last first.
    { intros [->|[->|[]%elem_of_nil]%elem_of_cons]%elem_of_cons; apply Hnot;
        [by right; left | by left]. }
    cbn [negb]. by step. }
  split; first done. intros m. by rewrite Hset.
Qed.

Lemma set_rejects_other_types_witness :
  heap Worlds.w0 !! 2 = Some (Object cApplicationRegistry {[ "_registry" := VRef 0 ]}) ∧
  type_of (H := Worlds.X) (VInt 3) Worlds.w0 = (Ok (cOther "int"), Worlds.w0) ∧
  (cOther "int" ∉ [cUnitRegistry; cLazyRegistry; cApplicationRegistry]) ∧
  ApplicationRegistry.set (perform 5) 2 (VInt 3) Worlds.w0 =
    (Raise (TypeError "Expected UnitRegistry; got <class 'int'>"), Worlds.w0).
Proof.
  assert (cOther "int" ∉ [cUnitRegistry; cLazyRegistry; cApplicationRegistry]) as Hnot.
  { intros Hin. repeat (apply elem_of_cons in Hin as [Hin|Hin]; [discriminate|]).
    by apply elem_of_nil in Hin. }
  split_and!; [reflexivity | reflexivity | exact Hnot |].
  refine (proj1 (set_rejects_other_types (H := Worlds.X) 5 Worlds.w0 2
            {[ "_registry" := VRef 0 ]} (VInt 3) (cOther "int") _ _ Hnot));
    reflexivity.
Defined.

(** C5 (amended).  On a handle with target [r]: a read of a name that
    ordinary lookup does not find on the handle, a subscript, a call and
    [iter] are the same operation performed on [r]; a membership test is the
    call [r.__contains__(item)]; a read of a name found on the handle
    ([_registry], [get], [set], ...) answers from the handle itself; a write
    of [_registry] updates the slot of the handle and nothing else; a write
    of any other name is the same write performed on [r]. *)
Theorem handle_forwards `{Collaborators} n w h a r :
  heap w !! h = Some (Object cApplicationRegistry a) →
  a !! "_registry" = Some r →
  (∀ name, ApplicationRegistry.lookup h a name = None →
     perform (S (S n)) (VRef h) (GetAttr name) w = perform (S n) r (GetAttr name) w) ∧
  (∀ name v, ApplicationRegistry.lookup h a name = Some v →
     perform (S n) (VRef h) (GetAttr name) w = (Ok v, w)) ∧
  (∀ item,
     perform (S (S n)) (VRef h) (GetItem item) w = perform (S n) r (GetItem item) w) ∧
  (∀ args kwargs,
     perform (S (S n)) (VRef h) (Call args kwargs) w =
     perform (S n) r (Call args kwargs) w) ∧
  (∀ item,
     ApplicationRegistry.__contains__ (perform (S n)) h item w =
     call_method (perform (S n)) r "__contains__" [item] ∅ w) ∧
  perform (S (S n)) (VRef h) Iter w = perform (S n) r Iter w ∧
  (∀ v,
     perform (S n) (VRef h) (SetAttr "_registry" v) w =
     (Ok VNone,
      World (<[h := Object cApplicationRegistry (<["_registry" := v]> a)]> (heap w))
            (outside w) (journal w))) ∧
  (∀ name v, name ≠ "_registry" →
     perform (S (S n)) (VRef h) (SetAttr name v) w =
     (perform (S n) r (SetAttr name v);; ret VNone) w).
Proof.
  intros Hh Hr.
  pose proof (app_read_slot n _ _ _ _ Hh Hr) as Hslot.
  split_and!.
  - intros name Hname. erewrite perform_ref; last done.
    cbn [ob_class ApplicationRegistry.perform].
    unfold ApplicationRegistry.getattribute. step; last by apply get_attrs_run.
    cbn [ob_attrs]. rewrite Hname. unfold ApplicationRegistry.__getattr__. by step.
  - intros name v Hname. erewrite perform_ref; last done.
    cbn [ob_class ApplicationRegistry.perform].
    unfold ApplicationRegistry.getattribute. step; last by apply get_attrs_run.
    cbn [ob_attrs]. by rewrite Hname.
  - intros item. erewrite perform_ref; last done.
    cbn [ob_class ApplicationRegistry.perform].
    unfold ApplicationRegistry.__getitem__. by step.
  - intros args kwargs. erewrite perform_ref; last done.
    cbn [ob_class ApplicationRegistry.perform].
    unfold ApplicationRegistry.__call__. by step.
  - intros item. unfold ApplicationRegistry.__contains__. by step.
  - erewrite perform_ref; last done.
    cbn [ob_class ApplicationRegistry.perform].
    unfold ApplicationRegistry.__iter__. by step.
  - intros v. by apply app_write_slot.
  - intros name v Hname. erewrite perform_ref; last done.
    cbn [ob_class ApplicationRegistry.perform].
    unfold ApplicationRegistry.__setattr__. rewrite decide_False; last first.
    { by intros ->%list_elem_of_singleton. }
    rewrite bind_assoc. step; last done.
    unfold bind, ret. by destruct (perform (S n) r (SetAttr name v) w) as [[?|?] ?].
Qed.

Lemma handle_forwards_witness :
  heap Worlds.w2 !! 2 = Some (Object cApplicationRegistry {[ "_registry" := VRef 0 ]}) ∧
  ({[ "_registry" := VRef 0 ]} : gmap string value) !! "_registry" = Some (VRef 0) ∧
  perform 2 (VRef 2) Iter Worlds.w2 = perform 1 (VRef 0) Iter Worlds.w2.
Proof.
  split_and!; [reflexivity | reflexivity |].
  refine (proj1 (proj2 (proj2 (proj2 (proj2 (proj2
            (handle_forwards (H := Worlds.X) 0 Worlds.w2 2
               {[ "_registry" := VRef 0 ]} (VRef 0) _ _)))))));
    reflexivity.
Defined.

Lemma handle_read_registry_not_forwarded :
  let on_handle := perform 4 (VRef 2) (GetAttr "_registry") Worlds.w0 in
  let on_target := perform 4 (VRef 0) (GetAttr "_registry") Worlds.w0 in
  ApplicationRegistry.get (perform 4) 2 Worlds.w0 = (Ok (VRef 0), Worlds.w0) ∧
  on_handle = (Ok (VRef 0), Worlds.w0) ∧
  on_target.1 = Raise (AttributeError "_registry") ∧
  class_at on_handle.2 0 = Some cLazyRegistry ∧
  class_at on_target.2 0 = Some cUnitRegistry.
Proof. split_and!; reflexivity. Qed.

(** ** The handle against an eagerly built registry *)

Section Eager.
Context `{Collaborators}.

Lemma ignores_insert {A} k (f : ext env A) attrs e v r a' e' :
  ignores k f → attrs !! k = None → f attrs e = (r, a', e') →
  a' !! k = None ∧ f (<[k := v]> attrs) e = (r, <[k := v]> a', e').
Proof.
  intros Hf Hk Hrun. destruct (Hf attrs e v Hk) as [Hnone Heq].
  rewrite Hrun in Hnone, Heq. done.
Qed.

Lemma bind_quantities (q : value) : bind_one "quantities" [q] ∅ = Ok q.
Proof. reflexivity. Qed.

(** [x.pi_theorem(q)] on a registry that does not shadow the method. *)
Lemma registry_pi_theorem n w l a q :
  heap w !! l = Some (Object cUnitRegistry a) →
  a !! "pi_theorem" = None →
  call_method (perform (S n)) (VRef l) "pi_theorem" [q] ∅ w =
    UnitRegistry.pi_theorem l q w.
Proof.
  intros Hl Ha. unfold call_method. step; last first.
  { erewrite perform_ref; last done. cbn [ob_class UnitRegistry.perform].
    unfold UnitRegistry.getattribute.
    rewrite decide_True by (unfold UnitRegistry.body; by repeat constructor).
    step; last by apply get_attrs_run. cbn [ob_attrs]. by rewrite Ha. }
  rewrite perform_bound. unfold UnitRegistry.invoke.
  rewrite decide_False by done. rewrite decide_True by done.
  step; last by (unfold lift; rewrite bind_quantities). done.
Qed.

Lemma touch_triggers_pi_theorem l args d :
  triggers l (params_table args d) (GetAttr "pi_theorem") = true.
Proof. reflexivity. Qed.

Lemma lazy_pi_run n w h args d kw q :
  pending w h args d kw →
  call_method (perform (S (S (S n)))) (VRef h) "pi_theorem" [q] ∅ w =
    match materialized w h args d kw with
    | (Ok _, wm) => call_method (perform (S (S (S n)))) (VRef h) "pi_theorem" [q] ∅ wm
    | (Raise e, wm) => (Raise e, wm)
    end.
Proof.
  intros Hp. unfold call_method, bind at 1.
  rewrite (touch_run _ _ _ _ _ _ _ Hp (touch_triggers_pi_theorem h args d)).
  destruct (materialized_lookup w h args d kw) as [a Ha].
  destruct (materialized w h args d kw) as [[[]|e] wm]; last done.
  cbn [snd] in Ha. unfold bind. erewrite (perform_ref _ _ _ wm); last done. done.
Qed.

Lemma eager_run args kwargs w :
  eager_registry args kwargs w =
    let l := fresh (dom (heap w)) in
    let h1 := <[l := Object cUnitRegistry ∅]> (heap w) in
    match bind_arguments UnitRegistry.signature args kwargs with
    | Raise e => (Raise e, World h1 (outside w) (journal w))
    | Ok b =>
        let cfg := UnitRegistry.forwarded b in
        let j1 := journal w ++ [Setup l cfg] in
        match Generic_init cfg ∅ (outside w) with
        | (Raise e, a1, e1) =>
            (Raise e, World (<[l := Object cUnitRegistry a1]> h1) e1 j1)
        | (Ok _, a1, e1) =>
            match registry_method "_after_init" [] ∅ a1 e1 with
            | (Raise e, a2, e2) =>
                (Raise e, World (<[l := Object cUnitRegistry a2]> h1) e2 j1)
            | (Ok _, a2, e2) =>
                (Ok l, World (<[l := Object cUnitRegistry a2]> h1) e2 j1)
            end
        end
    end.
Proof.
  cbv zeta. unfold eager_registry. step; last reflexivity.
  unfold UnitRegistry.__init__. rewrite !bind_assoc. unfold lift at 1, bind at 1.
  destruct (bind_arguments _ _ _) as [b|e]; last done.
  unfold bind, emit, run_ext, ret. cbn [heap outside journal].
  rewrite lookup_insert_eq. cbn [ob_attrs ob_class].
  destruct (Generic_init _ _ _) as [[[[]|e] a1] e1]; cbn [heap outside journal]; last done.
  rewrite lookup_insert_eq. cbn [ob_attrs ob_class].
  destruct (registry_method _ _ _ _ _) as [[[v|e] a2] e2]; cbn [heap outside journal];
    by rewrite insert_insert_eq.
Qed.


End Eager.

(** C7.  For collaborators whose setup and [pi_theorem] do not depend on
    the entries [params] and [pi_theorem] of the instance table: calling
    [h.pi_theorem(q)] on a pending handle materializes it and gives the same
    outcome, and leaves the collaborators in the same state, as
    [pi_theorem(q)] on a registry built eagerly from the stored arguments
    with [on_redefinition = "raise"]. *)
Theorem lazy_pi_theorem_agrees `{Collaborators} n w h args d kw q :
  setup_independent →
  pending w h args d kw →
  let lazy := call_method (perform (S (S (S n)))) (VRef h) "pi_theorem" [q] ∅ w in
  let eager :=
    (r ← eager_registry args (<["on_redefinition" := VStr "raise"]> kw);
     call_method (perform (S n)) (VRef r) "pi_theorem" [q] ∅) w in
  class_at lazy.2 h = Some cUnitRegistry ∧
  lazy.1 = eager.1 ∧
  outside lazy.2 = outside eager.2.
Proof.
  intros (Hinit & Hafter & Hpi & Hinit' & Hafter') Hp. cbv zeta.
  set (p := VTuple [VTuple args; VRef d]).
  assert (params_table args d = <["params" := p]> ∅) as Hpt by (by rewrite insert_empty).
  destruct (call_method _ (VRef h) _ _ _ w) as [rl wl] eqn:Hlazy.
  destruct (bind (eager_registry _ _) _ w) as [re we] eqn:Heager.
  cbn [fst snd]. revert Hlazy Heager.
  rewrite (lazy_pi_run _ _ _ _ _ _ _ Hp).
  unfold bind at 1. rewrite eager_run. cbv zeta.
  unfold materialized.
  destruct (bind_arguments _ _ _) as [b|e]; last first.
  { intros [= <- <-] [= <- <-]. unfold class_at. cbn [heap outside].
    by rewrite lookup_insert_eq. }
  set (cfg := UnitRegistry.forwarded b).
  destruct (Generic_init cfg ∅ (outside w)) as [[r1 a1] e1] eqn:Hrun1.
  destruct (ignores_insert _ _ _ _ p _ _ _ (Hinit cfg) (lookup_empty _) Hrun1) as [Ha1 Hl1].
  destruct (ignores_insert _ _ _ _ VNone _ _ _ (Hinit' cfg) (lookup_empty _) Hrun1)
    as [Ha1' _].
  rewrite Hpt, Hl1.
  destruct r1 as [[]|e]; last first.
  { intros [= <- <-] [= <- <-]. unfold class_at. cbn [heap outside].
    by rewrite lookup_insert_eq. }
  destruct (registry_method "_after_init" [] ∅ a1 e1) as [[r2 a2] e2] eqn:Hrun2.
  destruct (ignores_insert _ _ _ _ p _ _ _ Hafter Ha1 Hrun2) as [Ha2 Hl2].
  destruct (ignores_insert _ _ _ _ VNone _ _ _ Hafter' Ha1' Hrun2) as [Ha2' _].
  rewrite Hl2.
  destruct r2 as [v2|e]; last first.
  { intros [= <- <-] [= <- <-]. unfold class_at. cbn [heap outside].
    by rewrite lookup_insert_eq. }
  (* both registries answer [pi_theorem] with the method of the class *)
  erewrite (registry_pi_theorem _ _ h (<["params" := p]> a2));
    [| cbn [heap]; apply lookup_insert_eq | by rewrite lookup_insert_ne].
  erewrite (registry_pi_theorem _ _ _ a2);
    [| cbn [heap]; apply lookup_insert_eq | done].
  unfold UnitRegistry.pi_theorem.
  erewrite run_ext_run; last by (cbn [heap]; apply lookup_insert_eq).
  erewrite (run_ext_run (fresh _)); last by (cbn [heap]; apply lookup_insert_eq).
  cbn [ob_attrs ob_class fst snd heap outside].
  destruct (util_pi_theorem q a2 e2) as [[r3 a3] e3] eqn:Hrun3.
  destruct (ignores_insert _ _ _ _ p _ _ _ (Hpi q) Ha2 Hrun3) as [_ Hl3].
  rewrite Hl3. cbn [fst snd].
  intros [= <- <-] [= <- <-]. unfold class_at. cbn [heap outside].
  by rewrite lookup_insert_eq.
Qed.



Lemma demo_setup_independent : setup_independent (H := Worlds.X).
Proof.
  assert (∀ k, k ≠ "_on_redefinition" →
            ∀ cfg, ignores (H := Worlds.X) k (Demo.setup cfg)) as Hs.
  { intros k Hne cfg attrs e v Hk. unfold Demo.setup. cbn [fst snd].
    split; first by rewrite lookup_insert_ne.
    by rewrite insert_insert_ne. }
  assert (∀ k, k ≠ "_initialized" →
            ignores (H := Worlds.X) k (Demo.method "_after_init" [] ∅)) as Ha.
  { intros k Hne attrs e v Hk. unfold Demo.method.
    rewrite !decide_True by done. cbn [fst snd].
    split; first by rewrite lookup_insert_ne.
    by rewrite insert_insert_ne. }
  split_and!; [by apply Hs | by apply Ha | | by apply Hs | by apply Ha].
  intros q attrs e v Hk. done.
Qed.

Lemma lazy_pi_theorem_agrees_witness :
  setup_independent (H := Worlds.X) ∧
  pending Worlds.w0 0 [] 1 Worlds.kw0 ∧
  (call_method (perform 3) (VRef 0) "pi_theorem" [VOpaque "dict" 0] ∅ Worlds.w0).1 =
  ((r ← eager_registry [] (<["on_redefinition" := VStr "raise"]> Worlds.kw0);
    call_method (perform 1) (VRef r) "pi_theorem" [VOpaque "dict" 0] ∅) Worlds.w0).1.
Proof.
  assert (pending Worlds.w0 0 [] 1 Worlds.kw0) as Hp by (split; reflexivity).
  split_and!; [exact demo_setup_independent | exact Hp |].
  exact (proj1 (proj2 (lazy_pi_theorem_agrees (H := Worlds.X) 0 Worlds.w0 0 [] 1
           Worlds.kw0 (VOpaque "dict" 0) demo_setup_independent Hp))).
Defined.

(** ** The linearisation keeps the declared order of the bases *)

Section Linearisation.
Import Facets.

Lemma live_elem s seqs : s ∈ live seqs ↔ s ∈ seqs ∧ s ≠ [].
Proof.
  unfold live. rewrite !list_elem_of_In, filter_In.
  destruct s; (split; intros [? ?]; split; done).
Qed.

Lemma candidate_good seqs h :
  candidate seqs = Some h → ∀ s, s ∈ seqs → h ∉ tail s.
Proof.
  unfold candidate. intros [_ Hgood]%find_some s Hs.
  unfold good_head in Hgood. rewrite forallb_forall in Hgood.
  apply list_elem_of_In, Hgood in Hs. apply negb_true_iff in Hs.
  by apply bool_decide_eq_false in Hs.
Qed.

Lemma strip_sublist h s r :
  strip h s `sublist_of` r → s `sublist_of` h :: r.
Proof.
  destruct s as [|x t]; cbn [strip]; first by (intros; apply sublist_nil_l).
  case_decide as Hx.
  - subst. apply sublist_skip.
  - apply sublist_cons.
Qed.

Lemma strip_not_elem h s : h ∉ tail s → h ∉ strip h s.
Proof.
  destruct s as [|x t]; cbn [strip tail]; first by (intros _ ?%elem_of_nil).
  case_decide as Hx; first done.
  intros Ht [?|?]%elem_of_cons; congruence.
Qed.

Lemma strip_elem h s x : x ∈ strip h s → x ∈ s.
Proof.
  destruct s as [|y t]; cbn [strip]; first done.
  case_decide; last done. by right.
Qed.

Lemma live_concat seqs : concat (live seqs) = concat seqs.
Proof.
  induction seqs as [|s seqs IH]; first done.
  destruct s as [|x t]; first done.
  change (live ((x :: t) :: seqs)) with ((x :: t) :: live seqs).
  cbn [concat]. by rewrite IH.
Qed.

Lemma strip_length h s : (length (strip h s) ≤ length s)%nat.
Proof.
  destruct s as [|x t]; cbn [strip]; first done.
  case_decide; cbn [length]; lia.
Qed.

Lemma strip_concat_length h seqs :
  (length (concat (strip h <$> seqs)) ≤ length (concat seqs))%nat.
Proof.
  induction seqs as [|s seqs IH]; first done.
  cbn [fmap list_fmap concat]. rewrite !length_app.
  pose proof (strip_length h s). lia.
Qed.

Lemma strip_concat_shrinks h seqs :
  h ∈ omap head seqs →
  (length (concat (strip h <$> seqs)) < length (concat seqs))%nat.
Proof.
  induction seqs as [|s seqs IH]; first by intros ?%elem_of_nil.
  cbn [omap list_omap fmap list_fmap concat]. rewrite !length_app.
  pose proof (strip_length h s). pose proof (strip_concat_length h seqs).
  destruct s as [|x t]; cbn [head].
  - intros Hin. apply IH in Hin. cbn [strip length] in *. lia.
  - intros [->|Hin]%elem_of_cons.
    + cbn [strip]. rewrite decide_True by done. cbn [length]. lia.
    + apply IH in Hin. lia.
Qed.

Lemma merge_fuel n seqs :
  (length (concat seqs) ≤ n)%nat → merge n seqs = c3_merge seqs.
Proof.
  unfold c3_merge. remember (length (concat seqs)) as k eqn:Hk.
  revert seqs n Hk. induction k as [k IH] using lt_wf_ind. intros seqs n Hk Hn.
  destruct n as [|n], k as [|k]; try lia; cbn [merge].
  - done.
  - destruct (live seqs) as [|s0 rest] eqn:Hl; first done.
    assert (s0 ∈ live seqs) as [_ Hs0]%live_elem by (rewrite Hl; by left).
    rewrite <- live_concat, Hl in Hk. by destruct s0.
  - destruct (live seqs) as [|s0 rest] eqn:Hl; first done.
    destruct (candidate (s0 :: rest)) as [h|] eqn:Hc; last done.
    assert (length (concat (strip h <$> s0 :: rest)) < S k)%nat as Hlt.
    { rewrite Hk, <- (live_concat seqs), Hl. apply strip_concat_shrinks.
      unfold candidate in Hc. apply find_some in Hc as [Hh _]. by apply list_elem_of_In. }
    rewrite (IH _ Hlt _ n eq_refl) by lia.
    by rewrite (IH _ Hlt _ k eq_refl) by lia.
Qed.

Lemma merge_sublist n seqs r :
  merge n seqs = Some r → ∀ s, s ∈ seqs → s `sublist_of` r.
Proof.
  revert seqs r. induction n as [|n IH]; intros seqs r Hm s Hs.
  - cbn [merge] in Hm. destruct (live seqs) as [|s0 rest] eqn:Hl; last done.
    injection Hm as <-. destruct s as [|x t]; first done.
    assert (x :: t ∈ live seqs) as Hin by (by apply live_elem).
    rewrite Hl in Hin. by apply elem_of_nil in Hin.
  - cbn [merge] in Hm. destruct (live seqs) as [|s0 rest] eqn:Hl.
    + injection Hm as <-. destruct s as [|x t]; first done.
      assert (x :: t ∈ live seqs) as Hin by (by apply live_elem).
      rewrite Hl in Hin. by apply elem_of_nil in Hin.
    + destruct (candidate (s0 :: rest)) as [h|]; last done.
      destruct (merge n _) as [r'|] eqn:Hr; last done.
      injection Hm as <-.
      destruct s as [|x t]; first apply sublist_nil_l.
      apply strip_sublist. eapply IH; first done.
      apply list_elem_of_fmap. exists (x :: t). split; first done.
      rewrite <- Hl. by apply live_elem.
Qed.

Lemma merge_elem n seqs r x :
  merge n seqs = Some r → x ∈ r → ∃ s, s ∈ seqs ∧ x ∈ s.
Proof.
  revert seqs r. induction n as [|n IH]; intros seqs r Hm Hx.
  - cbn [merge] in Hm. destruct (live seqs); last done.
    injection Hm as <-. by apply elem_of_nil in Hx.
  - cbn [merge] in Hm. destruct (live seqs) as [|s0 rest] eqn:Hl.
    { injection Hm as <-. by apply elem_of_nil in Hx. }
    destruct (candidate (s0 :: rest)) as [h|] eqn:Hc; last done.
    destruct (merge n _) as [r'|] eqn:Hr; last done.
    injection Hm as <-. apply elem_of_cons in Hx as [->|Hx].
    + unfold candidate in Hc. apply find_some in Hc as [Hh _].
      apply list_elem_of_In, list_elem_of_omap in Hh as (s & Hs & Hhead).
      exists s. rewrite <- Hl in Hs. apply live_elem in Hs as [Hs _].
      split; first done. destruct s; first done. injection Hhead as ->. by left.
    + destruct (IH _ _ Hr Hx) as (s' & Hs' & Hxs').
      apply list_elem_of_fmap in Hs' as (s & -> & Hs).
      exists s. rewrite <- Hl in Hs. apply live_elem in Hs as [Hs _].
      split; first done. by eapply strip_elem.
Qed.

Lemma merge_NoDup n seqs r : merge n seqs = Some r → NoDup r.
Proof.
  revert seqs r. induction n as [|n IH]; intros seqs r Hm.
  - cbn [merge] in Hm. destruct (live seqs); last done.
    injection Hm as <-. constructor.
  - cbn [merge] in Hm. destruct (live seqs) as [|s0 rest] eqn:Hl.
    { injection Hm as <-. constructor. }
    destruct (candidate (s0 :: rest)) as [h|] eqn:Hc; last done.
    destruct (merge n _) as [r'|] eqn:Hr; last done.
    injection Hm as <-. constructor; last by eapply IH.
    intros Hh. destruct (merge_elem _ _ _ _ Hr Hh) as (s' & Hs' & Hhs').
    apply list_elem_of_fmap in Hs' as (s & -> & Hs).
    eapply strip_not_elem; last done. by eapply candidate_good.
Qed.

Lemma sublist_elem (l1 l2 : list string) x :
  l1 `sublist_of` l2 → x ∈ l1 → x ∈ l2.
Proof. intros Hsub. by apply sublist_subseteq. Qed.

Lemma find_respects_order (defines : string → bool) l f g :
  NoDup l → [f; g] `sublist_of` l → defines f = true →
  List.find defines l ≠ Some g.
Proof.
  induction l as [|x l IH]; intros Hnd Hsub Hf; first done.
  apply NoDup_cons in Hnd as [Hx Hnd]. cbn [List.find].
  inversion Hsub as [|? ? ? Hsub'|? ? ? Hsub']; subst.
  - rewrite Hf. intros [= ->]. apply Hx.
    eapply sublist_elem; first done. by left.
  - destruct (defines x); last by apply IH.
    intros [= ->]. apply Hx.
    eapply sublist_elem; first done. by right; left.
Qed.

Lemma find_sublist (defines : string → bool) l1 l2 :
  l1 `sublist_of` l2 → NoDup l2 →
  (∀ c, c ∈ l2 → defines c = true → c ∈ l1) →
  List.find defines l2 = List.find defines l1.
Proof.
  induction 1 as [|x l1 l2 Hsub IH|x l1 l2 Hsub IH]; intros Hnd Hdef; first done.
  - apply NoDup_cons in Hnd as [Hx Hnd]. cbn [List.find].
    destruct (defines x) eqn:Hdx; first done.
    apply IH; first done. intros c Hc Hdc.
    assert (c ∈ x :: l1) as [->|?]%elem_of_cons by (apply Hdef; [by right | done]);
      [congruence | done].
  - apply NoDup_cons in Hnd as [Hx Hnd]. cbn [List.find].
    destruct (defines x) eqn:Hdx.
    + exfalso. apply Hx. eapply sublist_elem; first done. apply Hdef; [by left | done].
    + apply IH; first done. intros c Hc Hdc. apply Hdef; [by right | done].
Qed.

(** [GenericNumpyRegistry], whose class statement is in the sources. *)
Example numpy_registry_order :
  linearize "GenericNumpyRegistry" GenericNumpyRegistry_bases
    [["GenericPlainRegistry"]] =
  Some ["GenericNumpyRegistry"; "GenericPlainRegistry"].
Proof. reflexivity. Qed.

Lemma linearize_precedence cls bases parents mro :
  cls ∉ bases →
  linearize cls bases parents = Some mro →
  bases `sublist_of` mro ∧
  (∀ defines f g,
     precedes f g bases → defines f = true → resolve defines mro ≠ Some g) ∧
  (∀ defines,
     (∀ c, defines c = true → c ∈ bases) →
     resolve defines mro = List.find defines bases).
Proof.
  intros Hcls. unfold linearize, c3_merge.
  destruct (merge _ _) as [r|] eqn:Hm; last done. intros [= <-].
  assert (bases `sublist_of` r) as Hsub.
  { eapply merge_sublist; first done. apply elem_of_app. right. by left. }
  split_and!; first by apply sublist_cons.
  - intros defines f g Hfg Hf. unfold resolve. cbn [List.find].
    destruct (defines cls).
    + intros [= ->]. apply Hcls. eapply sublist_elem; first done. by right; left.
    + eapply find_respects_order; [by eapply merge_NoDup | | done].
      by etrans.
  - intros defines Hdef. unfold resolve. cbn [List.find].
    destruct (defines cls) eqn:Hdc; first by (exfalso; apply Hcls, Hdef).
    apply find_sublist; [done | by eapply merge_NoDup | eauto].
Qed.

End Linearisation.

(** C6.  The bases of [Quantity], [Unit] and [GenericUnitRegistry] list the
    facets in one and the same order: system, context, dask, numpy,
    measurement, nonmultiplicative, plain.  Whatever the orders of the
    bases themselves, the method resolution order of each composed class
    keeps its bases in the declared order, so an attribute that an earlier
    base defines never resolves to a later one, and an attribute that only
    bases define resolves to the first base, in declared order, that
    defines it. *)
Theorem composed_precedence :
  omap Facets.facet_of Facets.Quantity_bases = Facets.precedence ∧
  omap Facets.facet_of Facets.Unit_bases = Facets.precedence ∧
  omap Facets.facet_of Facets.GenericUnitRegistry_bases = Facets.precedence ∧
  ∀ cls bases parents mro,
    (cls, bases) ∈ Facets.composed →
    Facets.linearize cls bases parents = Some mro →
    bases `sublist_of` mro ∧
    (∀ defines f g,
       Facets.precedes f g bases → defines f = true →
       Facets.resolve defines mro ≠ Some g) ∧
    (∀ defines,
       (∀ c, defines c = true → c ∈ bases) →
       Facets.resolve defines mro = List.find defines bases).
Proof.
  split_and!; [reflexivity..|].
  intros cls bases parents mro Hin. apply linearize_precedence.
  unfold Facets.composed in Hin.
  repeat (apply elem_of_cons in Hin as [[= -> ->]|Hin];
          [by (apply (bool_decide_unpack _); vm_compute)|]).
  by apply elem_of_nil in Hin.
Qed.

Lemma composed_precedence_witness :
  Facets.linearize "GenericUnitRegistry" Facets.GenericUnitRegistry_bases
    (Facets.over_plain Facets.GenericUnitRegistry_bases "GenericPlainRegistry") =
    Some ("GenericUnitRegistry" :: Facets.GenericUnitRegistry_bases) ∧
  Facets.GenericUnitRegistry_bases `sublist_of`
    "GenericUnitRegistry" :: Facets.GenericUnitRegistry_bases.
Proof.
  assert (Facets.linearize "GenericUnitRegistry" Facets.GenericUnitRegistry_bases
    (Facets.over_plain Facets.GenericUnitRegistry_bases "GenericPlainRegistry") =
    Some ("GenericUnitRegistry" :: Facets.GenericUnitRegistry_bases)) as Hlin
    by reflexivity.
  split; first exact Hlin.
  refine (proj1 (proj2 (proj2 (proj2 composed_precedence)) _ _ _ _ _ Hlin)).
  unfold Facets.composed. do 2 right. left.
Defined.

(** * Further properties of the code *)

(** ** Binding the arguments of [UnitRegistry.__init__] *)

Section Signature.
Context `{Collaborators}.

Lemma zip_lookup (names : list string) (args : list value) i name :
  NoDup names → names !! i = Some name →
  (list_to_map (zip names args) : gmap string value) !! name = args !! i.
Proof.
  intros Hnd. revert args i. induction Hnd as [|n names Hn Hnd IH]; intros args i Hi.
  - done.
  - destruct args as [|a args].
    + cbn. by destruct i.
    + cbn [zip zip_with]. rewrite list_to_map_cons. destruct i as [|i]; cbn in Hi.
      * injection Hi as ->. by rewrite lookup_insert_eq.
      * rewrite lookup_insert_ne; last first.
        { intros ->. apply Hn. by eapply list_elem_of_lookup_2. }
        exact (IH args i Hi).
Qed.

Lemma zip_lookup_None (names : list string) (args : list value) name :
  name ∉ names →
  (list_to_map (zip names args) : gmap string value) !! name = None.
Proof.
  revert args. induction names as [|n names IH]; intros args Hn; first done.
  destruct args as [|a args]; first done.
  cbn [zip zip_with]. rewrite list_to_map_cons.
  rewrite lookup_insert_ne; last by (intros ->; apply Hn; left).
  apply IH. intros ?. apply Hn. by right.
Qed.

Lemma signature_NoDup : NoDup (UnitRegistry.signature.*1).
Proof. apply (bool_decide_unpack _). by vm_compute. Qed.

Lemma signature_length : length (UnitRegistry.signature.*1) = 14.
Proof. reflexivity. Qed.

Lemma signature_defaults name :
  name ∈ UnitRegistry.signature.*1 →
  is_Some ((list_to_map (omap (λ p, (p.1,.) <$> p.2) UnitRegistry.signature)
            : gmap string value) !! name).
Proof.
  intros Hin. cbn in Hin.
  repeat (apply elem_of_cons in Hin as [->|Hin]; [by eexists|]).
  by apply elem_of_nil in Hin.
Qed.

Lemma signature_defaults_dom name :
  name ∉ UnitRegistry.signature.*1 →
  (list_to_map (omap (λ p, (p.1,.) <$> p.2) UnitRegistry.signature)
     : gmap string value) !! name = None.
Proof.
  intros Hn. apply not_elem_of_list_to_map_1. intros Hin. apply Hn.
  cbn in Hin |- *. done.
Qed.

Lemma super_keywords_names k :
  k ∈ UnitRegistry.super_keywords ↔ k ∈ UnitRegistry.signature.*1.
Proof.
  split; intros Hin; cbn in Hin;
    repeat (apply elem_of_cons in Hin as [->|Hin];
            [by (apply (bool_decide_unpack _); vm_compute)|]);
    by apply elem_of_nil in Hin.
Qed.

Lemma bind_arguments_inv sig args kwargs b :
  bind_arguments sig args kwargs = Ok b →
  (length args ≤ length sig.*1)%nat ∧
  map_Forall (λ k _, k ∈ sig.*1) kwargs ∧
  kwargs ##ₘ list_to_map (zip sig.*1 args).
Proof. unfold bind_arguments. by repeat case_decide. Qed.

(** [bind_arguments] on the signature of [__init__], which has a default
    for every parameter: the three checks decide the outcome. *)
Lemma bind_signature args kwargs :
  (length args ≤ 14)%nat →
  map_Forall (λ k _, k ∈ UnitRegistry.signature.*1) kwargs →
  kwargs ##ₘ list_to_map (zip UnitRegistry.signature.*1 args) →
  ∃ b, bind_arguments UnitRegistry.signature args kwargs = Ok b.
Proof.
  intros Hlen Hkeys Hdisj. unfold bind_arguments.
  rewrite decide_True by (by rewrite signature_length).
  rewrite decide_True by done. rewrite decide_True by done.
  rewrite decide_True; first by eexists.
  apply Forall_forall. intros name Hname.
  destruct (signature_defaults name Hname) as [v Hv].
  destruct ((kwargs ∪ list_to_map (zip UnitRegistry.signature.*1 args)) !! name)
    as [v'|] eqn:Hl.
  - exists v'. by apply lookup_union_Some_l.
  - exists v. by rewrite lookup_union_r.
Qed.

Lemma bind_failure_TypeError sig args kwargs e :
  bind_arguments sig args kwargs = Raise e → ∃ msg, e = TypeError msg.
Proof. unfold bind_arguments. repeat case_decide; intros [= <-]; by eexists. Qed.

Lemma bind_signature_rejects args kwargs :
  (14 < length args)%nat ∨
  (∃ k, is_Some (kwargs !! k) ∧ k ∉ UnitRegistry.signature.*1) ∨
  (∃ i name, (i < length args)%nat ∧
     UnitRegistry.signature.*1 !! i = Some name ∧ is_Some (kwargs !! name)) →
  ∃ msg, bind_arguments UnitRegistry.signature args kwargs = Raise (TypeError msg).
Proof.
  intros Hbad. destruct (bind_arguments _ _ _) as [b|e] eqn:Hb.
  - exfalso. destruct (bind_arguments_inv _ _ _ _ Hb) as (Hlen & Hkeys & Hdisj).
    rewrite signature_length in Hlen.
    destruct Hbad as [Hlong | [(k & [v Hk] & Hnot) | (i & name & Hi & Hname & [v Hk])]].
    + lia.
    + by apply Hkeys in Hk.
    + apply lookup_lt_is_Some_2 in Hi as [a Ha].
      eapply (map_disjoint_spec kwargs); [done.. |].
      by rewrite (zip_lookup _ args _ _ signature_NoDup Hname).
  - destruct (bind_failure_TypeError _ _ _ _ Hb) as [msg ->]. by exists msg.
Qed.

End Signature.

(** X1.  When the arguments of [UnitRegistry.__init__] bind, the keywords
    of the [super().__init__] call are exactly the bound parameters: the
    fourteen names of the signature and no other.  Each holds the keyword
    argument of its name if one was given, else the positional argument at
    its position, else its default; and one setup is journalled with
    them. *)
Theorem init_forwards_bound_arguments `{Collaborators} self args kwargs w b :
  bind_arguments UnitRegistry.signature args kwargs = Ok b →
  UnitRegistry.forwarded b = b ∧
  (∀ k, is_Some (b !! k) ↔ k ∈ UnitRegistry.signature.*1) ∧
  (∀ i name dflt,
     UnitRegistry.signature !! i = Some (name, dflt) →
     b !! name =
       match kwargs !! name with
       | Some v => Some v
       | None => match args !! i with Some v => Some v | None => dflt end
       end) ∧
  journal (UnitRegistry.__init__ self args kwargs w).2 = journal w ++ [Setup self b].
Proof.
  intros Hb.
  destruct (bind_arguments_inv _ _ _ _ Hb) as (Hlen & Hkeys & Hdisj).
  pose proof (bind_arguments_Ok _ _ _ _ Hb) as [Heq _].
  assert (∀ k, is_Some (b !! k) ↔ k ∈ UnitRegistry.signature.*1) as Hdom.
  { intros k. split.
    - intros [v Hv]. destruct (decide (k ∈ UnitRegistry.signature.*1)) as [|Hk]; first done.
      exfalso. rewrite Heq in Hv.
      apply lookup_union_Some_raw in Hv as [Hv|[_ Hv]].
      + apply lookup_union_Some_raw in Hv as [Hv|[_ Hv]].
        * by apply Hkeys in Hv.
        * by rewrite zip_lookup_None in Hv.
      + by rewrite signature_defaults_dom in Hv.
    - intros Hk. destruct (signature_defaults k Hk) as [v Hv]. rewrite Heq.
      destruct ((kwargs ∪ list_to_map (zip UnitRegistry.signature.*1 args)) !! k)
        as [v'|] eqn:Hl.
      + exists v'. by apply lookup_union_Some_l.
      + exists v. by rewrite lookup_union_r. }
  assert (UnitRegistry.forwarded b = b) as Hfw.
  { apply map_eq. intros k. unfold UnitRegistry.forwarded.
    rewrite forwarded_lookup_gen. case_decide as Hk; first done.
    rewrite super_keywords_names in Hk. symmetry. apply eq_None_not_Some.
    by rewrite Hdom. }
  split_and!; [done..| |].
  - intros i name dflt Hi.
    assert (UnitRegistry.signature.*1 !! i = Some name) as Hname
      by (by rewrite list_lookup_fmap, Hi).
    rewrite Heq. destruct (kwargs !! name) as [v|] eqn:Hk.
    { apply lookup_union_Some_l. by apply lookup_union_Some_l. }
    pose proof (zip_lookup _ args _ _ signature_NoDup Hname) as Hpos.
    destruct (args !! i) as [v|] eqn:Ha.
    { apply lookup_union_Some_l. by rewrite lookup_union_r. }
    rewrite lookup_union_r; last by rewrite lookup_union_r.
    clear -Hi. do 14 (destruct i as [|i]; [injection Hi as <- <-; reflexivity|]).
    done.
  - unfold UnitRegistry.__init__, bind, lift. rewrite Hb, Hfw.
    unfold emit, run_ext, bind, get_object, put_object, ret, raise; cbn.
    destruct (heap w !! self); last done.
    by destruct (Generic_init _ _ _) as [[??]?].
Qed.

(** X2.  [UnitRegistry.__init__] raises [TypeError] and changes nothing,
    so that no setup runs, when it is given more than fourteen positional
    arguments, a keyword that is no parameter, or a parameter both by
    position and by keyword; in every other case the arguments bind. *)
Theorem init_rejects_unbound_arguments `{Collaborators} self args kwargs w :
  ((14 < length args)%nat ∨
   (∃ k, is_Some (kwargs !! k) ∧ k ∉ UnitRegistry.signature.*1) ∨
   (∃ i name, (i < length args)%nat ∧
      UnitRegistry.signature.*1 !! i = Some name ∧ is_Some (kwargs !! name)) →
   ∃ msg, UnitRegistry.__init__ self args kwargs w = (Raise (TypeError msg), w)) ∧
  ((length args ≤ 14)%nat →
   (∀ k, is_Some (kwargs !! k) → k ∈ UnitRegistry.signature.*1) →
   (∀ i name, (i < length args)%nat →
      UnitRegistry.signature.*1 !! i = Some name → kwargs !! name = None) →
   ∃ b, bind_arguments UnitRegistry.signature args kwargs = Ok b).
Proof.
  split.
  - intros [msg Hb]%bind_signature_rejects. exists msg.
    unfold UnitRegistry.__init__, bind, lift. by rewrite Hb.
  - intros Hlen Hkeys Hpos. apply bind_signature; first done.
    + intros k v Hk. apply Hkeys. by eexists.
    + apply map_disjoint_spec. intros name v a Hk Ha.
      assert (name ∈ UnitRegistry.signature.*1) as Hin by (apply Hkeys; by eexists).
      apply list_elem_of_lookup in Hin as [i Hi].
      rewrite (zip_lookup _ args _ _ signature_NoDup Hi) in Ha.
      rewrite (Hpos i name) in Hk; [done | by eapply lookup_lt_Some | done].
Qed.


Lemma init_forwards_bound_arguments_witness :
  ∃ b, bind_arguments UnitRegistry.signature [VStr "units.txt"]
         {[ "system" := VStr "SI" ]} = Ok b ∧
       UnitRegistry.forwarded b = b ∧
       b !! "filename" = Some (VStr "units.txt") ∧
       b !! "system" = Some (VStr "SI") ∧
       b !! "on_redefinition" = Some (VStr "warn") ∧
       journal (UnitRegistry.__init__ (H := Worlds.X) 0 [VStr "units.txt"]
                  {[ "system" := VStr "SI" ]} Worlds.w2).2 = [Setup 0 b].
Proof.
  destruct (bind_arguments UnitRegistry.signature [VStr "units.txt"]
              {[ "system" := VStr "SI" ]}) as [b|e] eqn:Hb; last by vm_compute in Hb.
  destruct (init_forwards_bound_arguments (H := Worlds.X) 0 [VStr "units.txt"]
              {[ "system" := VStr "SI" ]} Worlds.w2 b Hb) as (Hfw & _ & Hval & Hj).
  exists b. split_and!; [reflexivity | exact Hfw | | | | exact Hj].
  - exact (Hval 0 "filename" (Some (VStr "")) eq_refl).
  - exact (Hval 6 "system" (Some VNone) eq_refl).
  - exact (Hval 5 "on_redefinition" (Some (VStr "warn")) eq_refl).
Defined.

(** ** Pending handles: failure and construction *)

Section Pending.
Context `{Collaborators}.

Lemma pending_ne w l args d kw : pending w l args d kw → l ≠ d.
Proof. intros [Hl Hd] ->. rewrite Hl in Hd. discriminate. Qed.

Lemma materialized_other w l args d kw l' :
  l' ≠ l → l' ≠ d →
  heap (materialized w l args d kw).2 !! l' = heap w !! l'.
Proof.
  intros Hl Hd. unfold materialized. destruct (bind_arguments _ _ _) as [b|e].
  - destruct (Generic_init _ _ _) as [[[[]|e] a1] e1].
    + destruct (registry_method _ _ _ _ _) as [[[v|e] a2] e2]; cbn [snd heap];
        by rewrite !lookup_insert_ne.
    + cbn [snd heap]. by rewrite !lookup_insert_ne.
  - cbn [snd heap]. by rewrite !lookup_insert_ne.
Qed.

Lemma materialized_dict w l args d kw :
  l ≠ d →
  heap (materialized w l args d kw).2 !! d =
    Some (Object cDict (<["on_redefinition" := VStr "raise"]> kw)).
Proof.
  intros Hne. unfold materialized. destruct (bind_arguments _ _ _) as [b|e].
  - destruct (Generic_init _ _ _) as [[[[]|e] a1] e1].
    + destruct (registry_method _ _ _ _ _) as [[[v|e] a2] e2]; cbn [snd heap];
        rewrite !lookup_insert_ne by done; apply lookup_insert_eq.
    + cbn [snd heap]. rewrite !lookup_insert_ne by done. apply lookup_insert_eq.
  - cbn [snd heap]. rewrite !lookup_insert_ne by done. apply lookup_insert_eq.
Qed.

Lemma materialized_unbound w l args d kw e :
  bind_arguments UnitRegistry.signature args
    (<["on_redefinition" := VStr "raise"]> kw) = Raise e →
  materialized w l args d kw =
    (Raise e,
     World (<[l := Object cUnitRegistry (params_table args d)]>
              (<[d := Object cDict (<["on_redefinition" := VStr "raise"]> kw)]> (heap w)))
           (outside w) (journal w)).
Proof. intros Hb. unfold materialized. by rewrite Hb. Qed.

(** Whether an operation triggers depends on the entries of the table
    only, and a pending handle holds the single entry [params]. *)
Lemma triggers_params l args d l' args' d' o :
  triggers l (params_table args d) o = triggers l' (params_table args' d') o.
Proof.
  destruct o as [name|key v|item|a k|]; cbn [triggers]; try done.
  unfold LazyRegistry.lookup, params_table.
  repeat case_decide; try done.
  all: destruct (decide (name = "params")) as [->|Hne];
    [by rewrite !lookup_singleton_eq | by rewrite !lookup_singleton_ne].
Qed.

End Pending.

(** X3.  A pending handle that stores six or more positional arguments
    cannot be materialized: the sixth position is [on_redefinition], which
    [__init] also passes by keyword.  Every triggering touch raises
    [TypeError], runs no setup and leaves the collaborators' state, yet it
    leaves the handle retyped to [UnitRegistry], with its table as it was,
    and ["raise"] stored in the dict. *)
Theorem lazy_positional_policy_rejected `{Collaborators} n w l args d kw o :
  pending w l args d kw →
  triggers l (params_table args d) o = true →
  (6 ≤ length args)%nat →
  let r := perform (S (S (S n))) (VRef l) o w in
  (∃ msg, r.1 = Raise (TypeError msg)) ∧
  journal r.2 = journal w ∧
  outside r.2 = outside w ∧
  class_at r.2 l = Some cUnitRegistry ∧
  table_at r.2 l = Some (params_table args d) ∧
  table_at r.2 d = Some (<["on_redefinition" := VStr "raise"]> kw).
Proof.
  intros Hp Ht Hlen. cbv zeta.
  pose proof (pending_ne _ _ _ _ _ Hp) as Hne.
  destruct (bind_signature_rejects args (<["on_redefinition" := VStr "raise"]> kw))
    as [msg Hb].
  { right; right. exists 5, "on_redefinition". split_and!; [lia | reflexivity |].
    rewrite lookup_insert_eq. by eexists. }
  rewrite (touch_run _ _ _ _ _ _ _ Hp Ht), (materialized_unbound _ _ _ _ _ _ Hb).
  unfold class_at, table_at. cbn [fst snd heap outside journal].
  split_and!; [by eexists | done | done | by rewrite lookup_insert_eq
              | by rewrite lookup_insert_eq |].
  rewrite lookup_insert_ne by done. by rewrite lookup_insert_eq.
Qed.

Lemma lazy_positional_policy_rejected_witness :
  let r := perform 3 (VRef 0) (GetItem (VStr "meter")) Cases.w3 in
  pending Cases.w3 0 Cases.six 1 ∅ ∧
  triggers 0 (params_table Cases.six 1) (GetItem (VStr "meter")) = true ∧
  (6 ≤ length Cases.six)%nat ∧
  (∃ msg, r.1 = Raise (TypeError msg)) ∧
  journal r.2 = journal Cases.w3 ∧
  outside r.2 = outside Cases.w3 ∧
  class_at r.2 0 = Some cUnitRegistry ∧
  table_at r.2 0 = Some (params_table Cases.six 1) ∧
  table_at r.2 1 = Some (<["on_redefinition" := VStr "raise"]> ∅).
Proof.
  cbv zeta.
  assert (pending Cases.w3 0 Cases.six 1 ∅) as Hp by (split; reflexivity).
  assert (6 ≤ length Cases.six)%nat as Hlen by (cbn; lia).
  split_and!; [exact Hp | reflexivity | exact Hlen |..];
    apply (lazy_positional_policy_rejected (H := Worlds.X) 0 Cases.w3 0 Cases.six 1 ∅
             (GetItem (VStr "meter")) Hp eq_refl Hlen).
Defined.

Section Constructed.
Context `{Collaborators}.

(** [args or ()] for [None] and for a tuple. *)
Lemma or_else_args args items w :
  args = VNone ∧ items = [] ∨ args = VTuple items →
  or_else args (ret (VTuple [])) w = (Ok (VTuple items), w).
Proof.
  intros [[-> ->] | ->]; first done.
  by destruct items.
Qed.

Lemma fresh_lookup (w : world) : heap w !! fresh (dom (heap w)) = None.
Proof. apply not_elem_of_dom, is_fresh. Qed.

Lemma fresh_next (w : world) o :
  let self := fresh (dom (heap w)) in
  let d' := fresh (dom (<[self := o]> (heap w))) in
  d' ≠ self ∧ heap w !! d' = None.
Proof.
  intros self d'. pose proof (is_fresh (dom (<[self := o]> (heap w)))) as Hf.
  fold d' in Hf. rewrite dom_insert_L in Hf. split.
  - intros Heq. apply Hf. rewrite Heq. by apply elem_of_union_l, elem_of_singleton.
  - apply not_elem_of_dom. intros Hin. by apply Hf, elem_of_union_r.
Qed.

(** The handle built with a dict that has items: it stores that very dict. *)
Lemma new_lazy_alias args items d kw w :
  args = VNone ∧ items = [] ∨ args = VTuple items →
  heap w !! d = Some (Object cDict kw) → kw ≠ ∅ →
  new_LazyRegistry args (VRef d) w =
    (Ok (fresh (dom (heap w))),
     World (<[fresh (dom (heap w)) := Object cLazyRegistry (params_table items d)]> (heap w))
           (outside w) (journal w)).
Proof.
  intros Hargs Hd Hkw. unfold new_LazyRegistry.
  pose proof (fresh_lookup w) as Hfresh.
  set (self := fresh (dom (heap w))) in *.
  assert (d ≠ self) as Hne by (intros ->; by rewrite Hfresh in Hd).
  step; last reflexivity.
  unfold LazyRegistry.__init__. rewrite !bind_assoc.
  step; last by apply or_else_args.
  rewrite bind_assoc.
  step; last first.
  { unfold or_else. step; last first.
    { cbn [truthy]. step; last first.
      { apply get_object_run. cbn [heap]. by rewrite lookup_insert_ne. }
      cbn [ob_class ob_attrs]. reflexivity. }
    rewrite bool_decide_eq_false_2; first done.
    by rewrite map_size_empty_iff. }
  step; last first.
  { apply set_item_run. cbn [heap]. apply lookup_insert_eq. }
  cbn [ob_class ob_attrs heap outside journal].
  unfold ret, params_table. by rewrite insert_insert_eq, insert_empty.
Qed.

(** [kwargs or {}] for [None] and for an empty dict. *)
Lemma or_else_kwargs_fresh kwargs w :
  kwargs = VNone ∨ (∃ d, kwargs = VRef d ∧ heap w !! d = Some (Object cDict ∅)) →
  or_else kwargs (l ← alloc (Object cDict ∅); ret (VRef l)) w =
    (Ok (VRef (fresh (dom (heap w)))),
     World (<[fresh (dom (heap w)) := Object cDict ∅]> (heap w)) (outside w) (journal w)).
Proof.
  intros [-> | (d & -> & Hd)]; first done.
  unfold or_else, truthy, bind, get_object. rewrite Hd. reflexivity.
Qed.

(** The handle built without keyword arguments, or with an empty dict:
    it stores a dict of its own. *)
Lemma new_lazy_fresh args items kwargs w :
  args = VNone ∧ items = [] ∨ args = VTuple items →
  kwargs = VNone ∨ (∃ d, kwargs = VRef d ∧ heap w !! d = Some (Object cDict ∅)) →
  let self := fresh (dom (heap w)) in
  let d' := fresh (dom (<[self := Object cLazyRegistry ∅]> (heap w))) in
  new_LazyRegistry args kwargs w =
    (Ok self,
     World (<[self := Object cLazyRegistry (params_table items d')]>
              (<[d' := Object cDict ∅]> (heap w)))
           (outside w) (journal w)).
Proof.
  intros Hargs Hkw self d'. unfold new_LazyRegistry.
  pose proof (fresh_lookup w) as Hfresh. fold self in Hfresh.
  destruct (fresh_next w (Object cLazyRegistry ∅)) as [Hne _].
  fold self d' in Hne.
  step; last reflexivity.
  unfold LazyRegistry.__init__. rewrite !bind_assoc.
  step; last by apply or_else_args.
  rewrite bind_assoc.
  step; last first.
  { apply or_else_kwargs_fresh. destruct Hkw as [-> | (d & -> & Hd)]; first by left.
    right. exists d. split; first done. cbn [heap].
    rewrite lookup_insert_ne; first done.
    intros Heq. rewrite <- Heq in Hd. fold self in Hd. by rewrite Hfresh in Hd. }
  cbn [heap].
  step; last first.
  { apply set_item_run. cbn [heap]. rewrite lookup_insert_ne by done.
    apply lookup_insert_eq. }
  cbn [ob_class ob_attrs heap outside journal].
  unfold ret, params_table. rewrite insert_empty.
  rewrite (insert_insert_ne _ d' self) by done. by rewrite insert_insert_eq.
Qed.

End Constructed.

(** X4.  [LazyRegistry(args, kwargs)], for [args] being [None] or a tuple,
    yields a pending handle that did not exist before.  Given a dict that
    has items, the handle stores that very dict; given [None] or an empty
    dict, it stores a new empty dict. *)
Theorem lazy_construction_pending `{Collaborators} args items kwargs w :
  args = VNone ∧ items = [] ∨ args = VTuple items →
  let r := new_LazyRegistry args kwargs w in
  (∀ d kw, kwargs = VRef d → heap w !! d = Some (Object cDict kw) → kw ≠ ∅ →
     ∃ self, r.1 = Ok self ∧ heap w !! self = None ∧ pending r.2 self items d kw) ∧
  (kwargs = VNone ∨ (∃ d, kwargs = VRef d ∧ heap w !! d = Some (Object cDict ∅)) →
     ∃ self d', r.1 = Ok self ∧ heap w !! self = None ∧ heap w !! d' = None ∧
                pending r.2 self items d' ∅).
Proof.
  intros Hargs. cbv zeta. split.
  - intros d kw -> Hd Hkw. rewrite (new_lazy_alias _ _ _ _ _ Hargs Hd Hkw).
    pose proof (fresh_lookup w) as Hfresh.
    eexists. split_and!; [done..|]. split; cbn [snd heap].
    + apply lookup_insert_eq.
    + rewrite lookup_insert_ne; first done. intros Heq. by rewrite Heq, Hd in Hfresh.
  - intros Hkw. rewrite (new_lazy_fresh _ _ _ _ Hargs Hkw).
    pose proof (fresh_lookup w) as Hfresh.
    set (self := fresh (dom (heap w))) in *.
    set (d' := fresh (dom (<[self := Object cLazyRegistry ∅]> (heap w)))).
    destruct (fresh_next w (Object cLazyRegistry ∅)) as [Hne Hd'].
    fold self d' in Hne, Hd'.
    exists self, d'. split_and!; [done..|]. split; cbn [snd heap].
    + apply lookup_insert_eq.
    + rewrite lookup_insert_ne by done. apply lookup_insert_eq.
Qed.

Lemma lazy_construction_pending_witness :
  (VNone = VNone ∧ ([] : list value) = [] ∨ VNone = VTuple []) ∧
  ∃ self, (new_LazyRegistry (H := Worlds.X) VNone (VRef 7) Cases.w5).1 = Ok self ∧
    heap Cases.w5 !! self = None ∧
    pending (new_LazyRegistry (H := Worlds.X) VNone (VRef 7) Cases.w5).2 self [] 7
      {[ "system" := VStr "SI" ]}.
Proof.
  assert (VNone = VNone ∧ ([] : list value) = [] ∨ VNone = VTuple []) as Hargs
    by (by left).
  split; first exact Hargs.
  refine (proj1 (lazy_construction_pending (H := Worlds.X) VNone [] (VRef 7) Cases.w5 Hargs)
            7 {[ "system" := VStr "SI" ]} eq_refl eq_refl _).
  intros Hkw. apply (f_equal (λ m : gmap string value, m !! "system")) in Hkw.
  discriminate.
Defined.

(** X5.  The dict passed to the constructor is shared with the handle
    only when it has items: after a triggering touch of the new handle the
    caller's dict holds [on_redefinition = "raise"] when it had items, and
    is still empty when it was empty. *)
Theorem lazy_kwargs_aliasing `{Collaborators} n args items d kw l0 o w :
  args = VNone ∧ items = [] ∨ args = VTuple items →
  heap w !! d = Some (Object cDict kw) →
  triggers l0 (params_table items d) o = true →
  let r := new_LazyRegistry args (VRef d) w in
  ∃ self, r.1 = Ok self ∧
    let w' := (perform (S (S (S n))) (VRef self) o r.2).2 in
    class_at w' self = Some cUnitRegistry ∧
    (kw ≠ ∅ → table_at w' d = Some (<["on_redefinition" := VStr "raise"]> kw)) ∧
    (kw = ∅ → table_at w' d = Some ∅).
Proof.
  intros Hargs Hd Ht. cbv zeta.
  pose proof (fresh_lookup w) as Hfresh.
  set (self := fresh (dom (heap w))) in *.
  assert (d ≠ self) as Hne by (intros ->; by rewrite Hfresh in Hd).
  exists self.
  assert (kw = ∅ ∨ kw ≠ ∅) as [-> | Hkw].
  { destruct (decide (size kw = 0)) as [Hs|Hs].
    - left. by apply map_size_empty_iff.
    - right. by rewrite <- map_size_empty_iff. }
  - rewrite (new_lazy_fresh args items (VRef d) w Hargs) by eauto.
    fold self. set (d' := fresh (dom (<[self := Object cLazyRegistry ∅]> (heap w)))).
    destruct (fresh_next w (Object cLazyRegistry ∅)) as [Hd's Hd'].
    fold self d' in Hd's, Hd'.
    assert (d ≠ d') as Hd'd by (intros Heq; by rewrite <- Heq, Hd in Hd').
    cbn [fst snd]. set (w1 := World _ _ _).
    assert (pending w1 self items d' ∅) as Hp.
    { split; subst w1; cbn [heap]; first apply lookup_insert_eq.
      rewrite lookup_insert_ne by done. apply lookup_insert_eq. }
    rewrite (triggers_params _ _ _ self items d') in Ht.
    destruct (touch_world n _ _ _ _ _ _ Hp Ht) as (_ & [a Ha] & Hother).
    split; first done. unfold class_at, table_at. rewrite Ha. split_and!; [done..|].
    intros _. rewrite Hother by done.
    rewrite materialized_other by done. subst w1. cbn [heap].
    rewrite !lookup_insert_ne by done. by rewrite Hd.
  - rewrite (new_lazy_alias args items d kw w Hargs Hd Hkw).
    fold self. cbn [fst snd]. set (w1 := World _ _ _).
    assert (pending w1 self items d kw) as Hp.
    { split; subst w1; cbn [heap]; first apply lookup_insert_eq.
      by rewrite lookup_insert_ne. }
    rewrite (triggers_params _ _ _ self items d) in Ht.
    destruct (touch_world n _ _ _ _ _ _ Hp Ht) as (_ & [a Ha] & Hother).
    split; first done. unfold class_at, table_at. rewrite Ha. split_and!; [done| |done].
    intros _. rewrite Hother by done.
    by rewrite materialized_dict.
Qed.

Lemma lazy_kwargs_aliasing_witness :
  let r := new_LazyRegistry (H := Worlds.X) VNone (VRef 8) Cases.w5 in
  (VNone = VNone ∧ ([] : list value) = [] ∨ VNone = VTuple []) ∧
  heap Cases.w5 !! 8 = Some (Object cDict ∅) ∧
  triggers 0 (params_table [] 8) (Call [] ∅) = true ∧
  ∃ self, r.1 = Ok self ∧
    class_at (perform 3 (VRef self) (Call [] ∅) r.2).2 self = Some cUnitRegistry ∧
    table_at (perform 3 (VRef self) (Call [] ∅) r.2).2 8 = Some ∅.
Proof.
  cbv zeta.
  assert (VNone = VNone ∧ ([] : list value) = [] ∨ VNone = VTuple []) as Hargs
    by (by left).
  split_and!; [exact Hargs | reflexivity | reflexivity |].
  destruct (lazy_kwargs_aliasing (H := Worlds.X) 0 VNone [] 8 ∅ 0 (Call [] ∅) Cases.w5
              Hargs eq_refl eq_refl) as (self & Hself & Hclass & _ & Hempty).
  exists self. split_and!; [exact Hself | exact Hclass | exact (Hempty eq_refl)].
Defined.

(** ** Handles over a registry *)

(** X6.  [ApplicationRegistry(registry)] accepts any value: it creates one
    object whose slot holds [registry] as given, neither checked nor
    unwrapped as [set] would, changes nothing else, and [get] on the new
    handle returns that value. *)
Theorem application_construction_unchecked `{Collaborators} n registry w :
  let r := new_ApplicationRegistry (perform (S n)) registry w in
  let self := fresh (dom (heap w)) in
  r.1 = Ok self ∧
  heap w !! self = None ∧
  heap r.2 = <[self := Object cApplicationRegistry {[ "_registry" := registry ]}]> (heap w) ∧
  outside r.2 = outside w ∧
  journal r.2 = journal w ∧
  ∀ m, ApplicationRegistry.get (perform (S m)) self r.2 = (Ok registry, r.2).
Proof.
  cbv zeta. pose proof (fresh_lookup w) as Hfresh.
  set (self := fresh (dom (heap w))) in *.
  assert (new_ApplicationRegistry (perform (S n)) registry w =
    (Ok self,
     World (<[self := Object cApplicationRegistry {[ "_registry" := registry ]}]> (heap w))
           (outside w) (journal w))) as ->.
  { unfold new_ApplicationRegistry. step; last reflexivity.
    unfold ApplicationRegistry.__init__. rewrite bind_assoc.
    step; last first.
    { eapply app_write_slot. cbn [heap]. apply lookup_insert_eq. }
    cbn [heap outside journal]. unfold bind, ret.
    by rewrite insert_insert_eq, insert_empty. }
  cbn [fst snd heap outside journal]. split_and!; [done..|].
  intros m. eapply app_get.
  - cbn [heap]. apply lookup_insert_eq.
  - apply lookup_singleton_eq.
Qed.

Section Forwarding.
Context `{Collaborators}.

(** [set] with a candidate of the handle's own class: the candidate's
    target takes its place. *)
Lemma app_set_unwrap n w h a lx ax t :
  heap w !! h = Some (Object cApplicationRegistry a) →
  heap w !! lx = Some (Object cApplicationRegistry ax) →
  ax !! "_registry" = Some t →
  registry_like w t →
  ApplicationRegistry.set (perform (S (S n))) h (VRef lx) w =
    ApplicationRegistry.set (perform (S (S n))) h t w.
Proof.
  intros Hh Hlx Ht (l & o & -> & Hl & Hc). unfold ApplicationRegistry.set.
  step; last by apply type_of_ref. cbn [ob_class].
  step; last by (apply isinstance_run, type_of_ref).
  cbn [ob_class]. rewrite bool_decide_eq_true_2 by (by left).
  step; last by eapply app_call_get.
  symmetry.
  step; last by apply type_of_ref. cbn [ob_class].
  step; last by (apply isinstance_run, type_of_ref).
  rewrite bool_decide_eq_false_2; last first.
  { intros Hin%list_elem_of_singleton. destruct Hc; congruence. }
  by step.
Qed.

(** An operation the handle hands over is the operation on the target. *)
Lemma handle_forward n w h a r o :
  heap w !! h = Some (Object cApplicationRegistry a) →
  a !! "_registry" = Some r →
  forwards h a o = true →
  perform (S (S n)) (VRef h) o w =
    match o with
    | SetAttr _ _ => (perform (S n) r o;; ret VNone) w
    | _ => perform (S n) r o w
    end.
Proof.
  intros Hh Hr Hf.
  pose proof (app_read_slot n _ _ _ _ Hh Hr) as Hslot.
  erewrite perform_ref; last done. cbn [ob_class].
  destruct o as [name|name v|item|args kwargs|]; cbn [ApplicationRegistry.perform forwards] in *.
  - unfold ApplicationRegistry.getattribute. step; last by apply get_attrs_run.
    cbn [ob_attrs]. destruct (ApplicationRegistry.lookup h a name); first done.
    unfold ApplicationRegistry.__getattr__. by step.
  - unfold ApplicationRegistry.__setattr__. rewrite decide_False; last first.
    { intros Hin. by rewrite bool_decide_eq_true_2 in Hf. }
    rewrite bind_assoc. step; last done.
    unfold bind, ret. by destruct (perform (S n) r (SetAttr name v) w) as [[?|?] ?].
  - unfold ApplicationRegistry.__getitem__. by step.
  - unfold ApplicationRegistry.__call__. by step.
  - unfold ApplicationRegistry.__iter__. by step.
Qed.

(** On a pending target a write answers [None] itself. *)
Lemma lazy_write_None n w l a key v :
  heap w !! l = Some (Object cLazyRegistry a) →
  (perform (S n) (VRef l) (SetAttr key v);; ret VNone) w =
    perform (S n) (VRef l) (SetAttr key v) w.
Proof.
  intros Hl. unfold bind at 1. erewrite perform_ref; last done.
  cbn [ob_class LazyRegistry.perform]. unfold bind, ret.
  by destruct (LazyRegistry.__setattr__ _ _ _ _ _) as [[?|?] ?].
Qed.

Lemma handle_forward_pending n w h a l args d kw o :
  heap w !! h = Some (Object cApplicationRegistry a) →
  a !! "_registry" = Some (VRef l) →
  pending w l args d kw →
  forwards h a o = true →
  perform (S (S n)) (VRef h) o w = perform (S n) (VRef l) o w.
Proof.
  intros Hh Hr [Hl Hd] Hf. rewrite (handle_forward _ _ _ _ _ _ Hh Hr Hf).
  destruct o; try done. by eapply lazy_write_None.
Qed.

End Forwarding.

(** X7.  A successful [set], of a registry or of a handle that wraps one,
    stores the registry in the slot of the handle and changes no other
    object, leaves the collaborators' state, logs one debug record with the
    old and the new target, and materializes nothing: every pending handle
    is still pending. *)
Theorem set_changes_only_slot `{Collaborators} n w h a old x t :
  heap w !! h = Some (Object cApplicationRegistry a) →
  a !! "_registry" = Some old →
  registry_like w t →
  x = t ∨ (∃ lx ax, x = VRef lx ∧ heap w !! lx = Some (Object cApplicationRegistry ax) ∧
                    ax !! "_registry" = Some t) →
  let r := ApplicationRegistry.set (perform (S (S n))) h x w in
  r.1 = Ok tt ∧
  heap r.2 = <[h := Object cApplicationRegistry (<["_registry" := t]> a)]> (heap w) ∧
  outside r.2 = outside w ∧
  journal r.2 = journal w ++ [Debug "Changing app registry from %r to %r." [old; t]] ∧
  ∀ l args d kw, pending w l args d kw → pending r.2 l args d kw.
Proof.
  intros Hh Hold Hlike Hx. cbv zeta.
  assert (ApplicationRegistry.set (perform (S (S n))) h x w =
          ApplicationRegistry.set (perform (S (S n))) h t w) as ->.
  { destruct Hx as [-> | (lx & ax & -> & Hlx & Ht)]; first done.
    by eapply app_set_unwrap. }
  rewrite (app_set_direct _ _ _ _ _ _ Hh Hold Hlike). cbn [fst snd heap outside journal].
  split_and!; [done..|].
  intros l args d kw [Hl Hd]. split; cbn [heap].
  - rewrite lookup_insert_ne; first done. intros <-. rewrite Hh in Hl. discriminate.
  - rewrite lookup_insert_ne; first done. intros <-. rewrite Hh in Hd. discriminate.
Qed.

Lemma set_changes_only_slot_witness :
  let r := ApplicationRegistry.set (perform 2) 3 (VRef 2) Worlds.w1 in
  heap Worlds.w1 !! 3 = Some (Object cApplicationRegistry {[ "_registry" := VRef 4 ]}) ∧
  ({[ "_registry" := VRef 4 ]} : gmap string value) !! "_registry" = Some (VRef 4) ∧
  registry_like Worlds.w1 (VRef 0) ∧
  r.1 = Ok tt ∧
  journal r.2 = [Debug "Changing app registry from %r to %r." [VRef 4; VRef 0]] ∧
  pending r.2 0 [] 1 Worlds.kw0.
Proof.
  cbv zeta.
  assert (registry_like Worlds.w1 (VRef 0)) as Hlike.
  { exists 0, (Object cLazyRegistry (params_table [] 1)).
    split_and!; [reflexivity | reflexivity | by left]. }
  assert (pending Worlds.w1 0 [] 1 Worlds.kw0) as Hp by (split; reflexivity).
  destruct (set_changes_only_slot (H := Worlds.X) 0 Worlds.w1 3
              {[ "_registry" := VRef 4 ]} (VRef 4) (VRef 2) (VRef 0) eq_refl eq_refl Hlike)
    as (Hok & _ & _ & Hj & Hpend).
  { right. exists 2, {[ "_registry" := VRef 0 ]}. split_and!; reflexivity. }
  split_and!; [reflexivity | reflexivity | exact Hlike | exact Hok | exact Hj
              | exact (Hpend 0 [] 1 Worlds.kw0 Hp)].
Defined.

(** X8.  An operation that a handle hands over and that triggers on its
    pending target, performed with room for four nested calls, is that
    operation on the target: the target is materialized in place, with one
    setup when the stored arguments bind and none otherwise, and the handle
    still refers to the same object. *)
Theorem handle_touch_materializes_target `{Collaborators} n w h a l args d kw o :
  heap w !! h = Some (Object cApplicationRegistry a) →
  a !! "_registry" = Some (VRef l) →
  pending w l args d kw →
  forwards h a o = true →
  triggers l (params_table args d) o = true →
  let r := perform (S (S (S (S n)))) (VRef h) o w in
  r = perform (S (S (S n))) (VRef l) o w ∧
  class_at r.2 l = Some cUnitRegistry ∧
  heap r.2 !! h = Some (Object cApplicationRegistry a) ∧
  journal r.2 = journal w ++
    match bind_arguments UnitRegistry.signature args
            (<["on_redefinition" := VStr "raise"]> kw) with
    | Ok b => [Setup l (UnitRegistry.forwarded b)]
    | Raise _ => []
    end.
Proof.
  intros Hh Hr Hp Hf Ht. cbv zeta.
  rewrite (handle_forward_pending _ _ _ _ _ _ _ _ _ Hh Hr Hp Hf).
  destruct (touch_world n _ _ _ _ _ _ Hp Ht) as (Hj & [a' Ha'] & Hother).
  destruct Hp as [Hl Hd].
  assert (h ≠ l) as Hhl by (intros ->; rewrite Hh in Hl; discriminate).
  assert (h ≠ d) as Hhd by (intros ->; rewrite Hh in Hd; discriminate).
  split_and!.
  - done.
  - unfold class_at. by rewrite Ha'.
  - rewrite Hother by done. by rewrite materialized_other.
  - by rewrite Hj, materialized_journal.
Qed.

Lemma handle_touch_materializes_target_witness :
  let r := perform 4 (VRef 2) (GetAttr "meter") Worlds.w0 in
  heap Worlds.w0 !! 2 = Some (Object cApplicationRegistry {[ "_registry" := VRef 0 ]}) ∧
  ({[ "_registry" := VRef 0 ]} : gmap string value) !! "_registry" = Some (VRef 0) ∧
  pending Worlds.w0 0 [] 1 Worlds.kw0 ∧
  forwards 2 {[ "_registry" := VRef 0 ]} (GetAttr "meter") = true ∧
  triggers 0 (params_table [] 1) (GetAttr "meter") = true ∧
  class_at r.2 0 = Some cUnitRegistry ∧
  heap r.2 !! 2 = Some (Object cApplicationRegistry {[ "_registry" := VRef 0 ]}).
Proof.
  cbv zeta.
  assert (pending Worlds.w0 0 [] 1 Worlds.kw0) as Hp by (split; reflexivity).
  destruct (handle_touch_materializes_target (H := Worlds.X) 0 Worlds.w0 2
              {[ "_registry" := VRef 0 ]} 0 [] 1 Worlds.kw0 (GetAttr "meter")
              eq_refl eq_refl Hp eq_refl eq_refl) as (_ & Hc & Hh & _).
  split_and!; [reflexivity | reflexivity | exact Hp | reflexivity | reflexivity
              | exact Hc | exact Hh].
Defined.

(** X9.  Reading [__class__] on a handle answers [ApplicationRegistry],
    whereas writing [__class__] through a handle is handed over: with a
    pending target and a layout-compatible class it retypes the target, not
    the handle, and runs no setup. *)
Theorem handle_class_write_retypes_target `{Collaborators} n w h a l args d kw c :
  heap w !! h = Some (Object cApplicationRegistry a) →
  a !! "_registry" = Some (VRef l) →
  pending w l args d kw →
  layout_compatible c = true →
  perform (S n) (VRef h) (GetAttr "__class__") w = (Ok (VClass cApplicationRegistry), w) ∧
  perform (S (S n)) (VRef h) (SetAttr "__class__" (VClass c)) w =
    (Ok VNone,
     World (<[l := Object c (params_table args d)]> (heap w)) (outside w) (journal w)).
Proof.
  intros Hh Hr Hp Hc. split.
  - erewrite perform_ref; last done. cbn [ob_class ApplicationRegistry.perform].
    unfold ApplicationRegistry.getattribute. step; last by apply get_attrs_run. done.
  - rewrite (handle_forward_pending _ _ _ _ _ _ _ _
               (SetAttr "__class__" (VClass c)) Hh Hr Hp eq_refl).
    destruct Hp as [Hl Hd]. rewrite (lazy_write_class _ _ _ _ _ Hl). by rewrite Hc.
Qed.

Lemma handle_class_write_retypes_target_witness :
  heap Worlds.w0 !! 2 = Some (Object cApplicationRegistry {[ "_registry" := VRef 0 ]}) ∧
  ({[ "_registry" := VRef 0 ]} : gmap string value) !! "_registry" = Some (VRef 0) ∧
  pending Worlds.w0 0 [] 1 Worlds.kw0 ∧
  layout_compatible (H := Worlds.X) cUnitRegistry = true ∧
  perform 1 (VRef 2) (GetAttr "__class__") Worlds.w0 =
    (Ok (VClass cApplicationRegistry), Worlds.w0) ∧
  perform 2 (VRef 2) (SetAttr "__class__" (VClass cUnitRegistry)) Worlds.w0 =
    (Ok VNone,
     World (<[0 := Object cUnitRegistry (params_table [] 1)]> (heap Worlds.w0))
           (outside Worlds.w0) (journal Worlds.w0)).
Proof.
  assert (pending Worlds.w0 0 [] 1 Worlds.kw0) as Hp by (split; reflexivity).
  split_and!; [reflexivity | reflexivity | exact Hp | reflexivity |..];
    apply (handle_class_write_retypes_target (H := Worlds.X) 0 Worlds.w0 2
             {[ "_registry" := VRef 0 ]} 0 [] 1 Worlds.kw0 cUnitRegistry
             eq_refl eq_refl Hp eq_refl).
Defined.

Section Unset.
Context `{Collaborators}.

(** Reading the slot of a handle on which it was never assigned: the
    failed lookup runs [__getattr__], which reads the slot again. *)
Lemma unset_slot_read n w h a :
  heap w !! h = Some (Object cApplicationRegistry a) →
  a !! "_registry" = None →
  perform n (VRef h) (GetAttr "_registry") w = (Raise RecursionError, w).
Proof.
  intros Hh Ha. induction n as [|n IH]; first done.
  erewrite perform_ref; last done. cbn [ob_class ApplicationRegistry.perform].
  unfold ApplicationRegistry.getattribute. step; last by apply get_attrs_run.
  cbn [ob_attrs]. unfold ApplicationRegistry.lookup.
  rewrite decide_False by done. rewrite decide_True by (by left).
  rewrite Ha. unfold ApplicationRegistry.__getattr__. by step_raise.
Qed.

Lemma lazy_init_missing_params n w l a :
  heap w !! l = Some (Object cLazyRegistry a) →
  a !! "params" = None → a !! "_LazyRegistry__init" = None →
  call_method (perform (S (S n))) (VRef l) "_LazyRegistry__init" [] ∅ w =
    (Raise (KeyError "params"), w).
Proof.
  intros Hl Hp Hi. unfold call_method. step; last first.
  { erewrite perform_ref; last done. cbn [ob_class LazyRegistry.perform].
    unfold LazyRegistry.getattribute. step; last by apply get_attrs_run.
    cbn [ob_attrs]. unfold LazyRegistry.lookup.
    rewrite decide_False by done. rewrite decide_False; last first.
    { intros [?|[?|[]%elem_of_nil]%elem_of_cons]%elem_of_cons; done. }
    rewrite Hi. rewrite decide_True; first done.
    unfold LazyRegistry.body. by right; left. }
  rewrite perform_bound. unfold LazyRegistry.invoke.
  rewrite decide_False by done. rewrite decide_True by done.
  step; last reflexivity.
  step_raise; last first.
  { unfold LazyRegistry.__init. step_raise; last first.
    { unfold get_item. step; last by apply get_attrs_run.
      cbn [ob_attrs]. by rewrite Hp. }
    done. }
  done.
Qed.

End Unset.

(** X10.  On a handle whose slot was never assigned, [get], every
    operation the handle hands over, a membership test and [set] of a
    registry raise [RecursionError] whatever the recursion limit, and change
    nothing; assigning the slot is the operation that succeeds. *)
Theorem unset_handle_recursion `{Collaborators} n w h a :
  heap w !! h = Some (Object cApplicationRegistry a) →
  a !! "_registry" = None →
  ApplicationRegistry.get (perform n) h w = (Raise RecursionError, w) ∧
  (∀ o, forwards h a o = true → perform n (VRef h) o w = (Raise RecursionError, w)) ∧
  (∀ item,
     ApplicationRegistry.__contains__ (perform n) h item w = (Raise RecursionError, w)) ∧
  (∀ x, registry_like w x →
     ApplicationRegistry.set (perform n) h x w = (Raise RecursionError, w)) ∧
  (∀ v, perform (S n) (VRef h) (SetAttr "_registry" v) w =
     (Ok VNone,
      World (<[h := Object cApplicationRegistry (<["_registry" := v]> a)]> (heap w))
            (outside w) (journal w))).
Proof.
  intros Hh Ha.
  pose proof (λ m, unset_slot_read m _ _ _ Hh Ha) as Hslot.
  split_and!.
  - apply Hslot.
  - intros o Hf. destruct n as [|n]; first done.
    erewrite perform_ref; last done. cbn [ob_class].
    destruct o as [name|name v|item|args kwargs|];
      cbn [ApplicationRegistry.perform forwards] in *.
    + unfold ApplicationRegistry.getattribute. step; last by apply get_attrs_run.
      cbn [ob_attrs]. destruct (ApplicationRegistry.lookup h a name); first done.
      unfold ApplicationRegistry.__getattr__. by step_raise.
    + unfold ApplicationRegistry.__setattr__. rewrite decide_False; last first.
      { intros Hin. by rewrite bool_decide_eq_true_2 in Hf. }
      rewrite bind_assoc. by step_raise.
    + unfold ApplicationRegistry.__getitem__. by step_raise.
    + unfold ApplicationRegistry.__call__. by step_raise.
    + unfold ApplicationRegistry.__iter__. by step_raise.
  - intros item. unfold ApplicationRegistry.__contains__. by step_raise.
  - intros x (l & o & -> & Hl & Hc). unfold ApplicationRegistry.set.
    step; last by apply type_of_ref. cbn [ob_class].
    step; last by (apply isinstance_run, type_of_ref).
    rewrite bool_decide_eq_false_2; last first.
    { intros Hin%list_elem_of_singleton. destruct Hc; congruence. }
    step; last done.
    step; last by (apply isinstance_run, type_of_ref).
    rewrite bool_decide_eq_true_2; last first.
    { destruct Hc as [-> | ->]; [by left | by right; left]. }
    cbn [negb]. by step_raise.
  - intros v. by apply app_write_slot.
Qed.

Lemma unset_handle_recursion_witness :
  heap Cases.w4 !! 5 = Some (Object cApplicationRegistry ∅) ∧
  (∅ : gmap string value) !! "_registry" = None ∧
  ApplicationRegistry.get (perform 1000) 5 Cases.w4 = (Raise RecursionError, Cases.w4).
Proof.
  split_and!; [reflexivity | reflexivity |].
  exact (proj1 (unset_handle_recursion (H := Worlds.X) 1000 Cases.w4 5 ∅ eq_refl eq_refl)).
Defined.

(** X11.  On a [LazyRegistry] whose table has no entry [params] and does
    not shadow [__init], every triggering operation raises [KeyError] for
    [params] and changes nothing: the handle keeps its class and no setup
    runs. *)
Theorem lazy_without_params `{Collaborators} n w l a o :
  heap w !! l = Some (Object cLazyRegistry a) →
  a !! "params" = None →
  a !! "_LazyRegistry__init" = None →
  triggers l a o = true →
  perform (S (S (S n))) (VRef l) o w = (Raise (KeyError "params"), w).
Proof.
  intros Hl Hp Hi Ht.
  pose proof (lazy_init_missing_params n _ _ _ Hl Hp Hi) as Hc.
  erewrite perform_ref; last done. cbn [ob_class].
  destruct o as [name|key v|item|args' kwargs'|]; cbn [LazyRegistry.perform triggers] in *.
  - unfold LazyRegistry.getattribute. step; last by apply get_attrs_run.
    cbn [ob_attrs]. destruct (LazyRegistry.lookup _ _ _); first done.
    unfold LazyRegistry.__getattr__. rewrite decide_False; last by (intros ->).
    by step_raise.
  - unfold LazyRegistry.__setattr__. rewrite decide_False; last by (intros ->).
    rewrite bind_assoc. by step_raise.
  - unfold LazyRegistry.__getitem__. by step_raise.
  - unfold LazyRegistry.__call__. by step_raise.
  - done.
Qed.

Lemma lazy_without_params_witness :
  heap Cases.w4 !! 6 = Some (Object cLazyRegistry ∅) ∧
  (∅ : gmap string value) !! "params" = None ∧
  (∅ : gmap string value) !! "_LazyRegistry__init" = None ∧
  triggers 6 ∅ (GetAttr "meter") = true ∧
  perform 3 (VRef 6) (GetAttr "meter") Cases.w4 = (Raise (KeyError "params"), Cases.w4).
Proof.
  split_and!; [reflexivity..|].
  exact (lazy_without_params (H := Worlds.X) 0 Cases.w4 6 ∅ (GetAttr "meter")
           eq_refl eq_refl eq_refl eq_refl).
Defined.

(** X12.  On a handle with a pending target, [iter] answers a sequence
    iterator over the target and changes nothing, whereas a membership test
    first materializes the target and then calls the registry's
    [__contains__]. *)
Theorem handle_iter_and_contains `{Collaborators} n w h a l args d kw item :
  heap w !! h = Some (Object cApplicationRegistry a) →
  a !! "_registry" = Some (VRef l) →
  pending w l args d kw →
  perform (S (S n)) (VRef h) Iter w = (Ok (VSeqIter l), w) ∧
  ApplicationRegistry.__contains__ (perform (S (S (S n)))) h item w =
    match materialized w l args d kw with
    | (Ok _, w') =>
        call_method (perform (S (S (S n)))) (VRef l) "__contains__" [item] ∅ w'
    | (Raise e, w') => (Raise e, w')
    end.
Proof.
  intros Hh Hr Hp. split.
  - rewrite (handle_forward_pending _ _ _ _ _ _ _ _ Iter Hh Hr Hp eq_refl).
    destruct Hp as [Hl Hd]. erewrite perform_ref; last exact Hl. reflexivity.
  - unfold ApplicationRegistry.__contains__.
    step; last by eapply app_read_slot.
    unfold call_method, bind at 1.
    assert (triggers l (params_table args d) (GetAttr "__contains__") = true) as Ht
      by reflexivity.
    rewrite (touch_run _ _ _ _ _ _ _ Hp Ht).
    destruct (materialized_lookup w l args d kw) as [a' Ha'].
    destruct (materialized w l args d kw) as [[[]|e] wm]; last done.
    cbn [snd] in Ha'. unfold bind. erewrite (perform_ref _ _ _ wm); last exact Ha'.
    cbn [ob_class]. reflexivity.
Qed.

Lemma handle_iter_and_contains_witness :
  heap Worlds.w0 !! 2 = Some (Object cApplicationRegistry {[ "_registry" := VRef 0 ]}) ∧
  ({[ "_registry" := VRef 0 ]} : gmap string value) !! "_registry" = Some (VRef 0) ∧
  pending Worlds.w0 0 [] 1 Worlds.kw0 ∧
  perform 2 (VRef 2) Iter Worlds.w0 = (Ok (VSeqIter 0), Worlds.w0).
Proof.
  assert (pending Worlds.w0 0 [] 1 Worlds.kw0) as Hp by (split; reflexivity).
  split_and!; [reflexivity | reflexivity | exact Hp |].
  exact (proj1 (handle_iter_and_contains (H := Worlds.X) 0 Worlds.w0 2
           {[ "_registry" := VRef 0 ]} 0 [] 1 Worlds.kw0 VNone eq_refl eq_refl Hp)).
Defined.

Section Inverted.
Import Facets.

Lemma sublist_inverted (f g : string) l :
  NoDup l → [f; g] `sublist_of` l → [g; f] `sublist_of` l → False.
Proof.
  induction l as [|x l IH]; intros Hnd Hfg Hgf; first by inversion Hfg.
  apply NoDup_cons in Hnd as [Hx Hnd].
  inversion Hfg as [|? ? ? Hfg'|? ? ? Hfg']; subst;
    inversion Hgf as [|? ? ? Hgf'|? ? ? Hgf']; subst.
  - apply Hx. eapply sublist_elem; first exact Hfg'. by left.
  - apply Hx. eapply sublist_elem; first exact Hgf'. by right; left.
  - apply Hx. eapply sublist_elem; first exact Hfg'. by right; left.
  - by apply IH.
Qed.

End Inverted.

(** X13.  A class statement that lists [f] before [g] among its bases,
    while the order of one of these bases has [g] before [f], has no
    linearisation.  With [GenericNumpyRegistry] deriving from
    [GenericPlainRegistry], the plain registry cannot come before the numpy
    one among the bases of [GenericUnitRegistry]. *)
Theorem linearize_rejects_inverted_order cls bases parents p f g :
  Facets.precedes f g bases →
  p ∈ parents →
  Facets.precedes g f p →
  Facets.linearize cls bases parents = None.
Proof.
  intros Hfg Hp Hgf. unfold Facets.linearize, Facets.c3_merge.
  destruct (Facets.merge _ _) as [r|] eqn:Hm; last done.
  exfalso. apply (sublist_inverted f g r).
  - by eapply merge_NoDup.
  - etrans; first exact Hfg. eapply merge_sublist; first done.
    apply elem_of_app. right. by left.
  - etrans; first exact Hgf. eapply merge_sublist; first done.
    apply elem_of_app. by left.
Qed.

Lemma linearize_rejects_inverted_order_witness :
  Facets.precedes "GenericPlainRegistry" "GenericNumpyRegistry"
    ["GenericPlainRegistry"; "GenericNumpyRegistry"] ∧
  ["GenericNumpyRegistry"; "GenericPlainRegistry"] ∈
    [["GenericPlainRegistry"]; ["GenericNumpyRegistry"; "GenericPlainRegistry"]] ∧
  Facets.precedes "GenericNumpyRegistry" "GenericPlainRegistry"
    ["GenericNumpyRegistry"; "GenericPlainRegistry"] ∧
  Facets.linearize "GenericUnitRegistry"
    ["GenericPlainRegistry"; "GenericNumpyRegistry"]
    [["GenericPlainRegistry"]; ["GenericNumpyRegistry"; "GenericPlainRegistry"]] = None.
Proof.
  assert (∀ f g : string, Facets.precedes f g [f; g]) as Hpre.
  { intros f g. unfold Facets.precedes. done. }
  assert (["GenericNumpyRegistry"; "GenericPlainRegistry"] ∈
    [["GenericPlainRegistry"]; ["GenericNumpyRegistry"; "GenericPlainRegistry"]]) as Hin.
  { right. left. }
  split_and!; [apply Hpre | exact Hin | apply Hpre |].
  exact (linearize_rejects_inverted_order "GenericUnitRegistry" _ _ _ _ _
           (Hpre _ _) Hin (Hpre _ _)).
Defined.

(** X14.  [set] unwraps one level only: given a handle whose own target
    is of a class other than [LazyRegistry] and [UnitRegistry] (another
    handle, or any value the constructor accepted), it raises [TypeError]
    naming the class of that target and changes nothing. *)
Theorem set_unwraps_one_level `{Collaborators} n w h a lx ax t c :
  heap w !! h = Some (Object cApplicationRegistry a) →
  heap w !! lx = Some (Object cApplicationRegistry ax) →
  ax !! "_registry" = Some t →
  type_of t w = (Ok c, w) →
  c ∉ [cLazyRegistry; cUnitRegistry] →
  ApplicationRegistry.set (perform (S (S n))) h (VRef lx) w =
    (Raise (TypeError ("Expected UnitRegistry; got " +:+ repr_class c)), w).
Proof.
  intros Hh Hlx Ht Hc Hnot. unfold ApplicationRegistry.set.
  step; last by apply type_of_ref. cbn [ob_class].
  step; last by (apply isinstance_run, type_of_ref).
  cbn [ob_class]. rewrite bool_decide_eq_true_2 by (by left).
  step; last by eapply app_call_get.
  step; last by apply isinstance_run.
  rewrite bool_decide_eq_false_2 by done.
  cbn [negb]. by step.
Qed.

Lemma set_unwraps_one_level_witness :
  heap Worlds.w1 !! 2 = Some (Object cApplicationRegistry {[ "_registry" := VRef 0 ]}) ∧
  heap Worlds.w1 !! 3 = Some (Object cApplicationRegistry {[ "_registry" := VRef 4 ]}) ∧
  ({[ "_registry" := VRef 4 ]} : gmap string value) !! "_registry" = Some (VRef 4) ∧
  type_of (VRef 4) Worlds.w1 = (Ok cApplicationRegistry, Worlds.w1) ∧
  (cApplicationRegistry ∉ [cLazyRegistry; cUnitRegistry]) ∧
  ApplicationRegistry.set (perform 2) 2 (VRef 3) Worlds.w1 =
    (Raise (TypeError
       "Expected UnitRegistry; got <class 'pint.registry.ApplicationRegistry'>"),
     Worlds.w1).
Proof.
  assert (cApplicationRegistry ∉ [cLazyRegistry; cUnitRegistry]) as Hnot.
  { intros Hin. repeat (apply elem_of_cons in Hin as [Hin|Hin]; [discriminate|]).
    by apply elem_of_nil in Hin. }
  split_and!; [reflexivity | reflexivity | reflexivity | reflexivity | exact Hnot |].
  exact (set_unwraps_one_level (H := Worlds.X) 0 Worlds.w1 2 {[ "_registry" := VRef 0 ]}
           3 {[ "_registry" := VRef 4 ]} (VRef 4) cApplicationRegistry
           eq_refl eq_refl eq_refl eq_refl Hnot).
Defined.
